(** * Jugaad-AI: the action reconciliation engine of the shop assistant

    A shallow embedding of the state handling of [src/App.tsx]
    ([updateInventoryAndRecordSale], [handleQuickRestock],
    [handleAddNewItem], [handleSaleComplete], [processCartItems],
    [handleAiAction]) and of the cart operations of the bill calculator
    ([addToCart], [updateQty], [removeItem], the voice merge and the cart
    buttons), followed by the properties the specification states about
    them.

    Modelling conventions.
    - A JavaScript [number] is a rational ([Q]): every finite double is
      one, and the numbers a payload carries are doubles.  [NaN] and the
      infinities are outside the model.  Quantities and prices are added,
      subtracted and multiplied exactly, which is what the doubles do on
      whole numbers below 2^53 ([fl_int]); the arithmetic of the cost
      basis, which multiplies by the literal [0.8] (not a binary
      fraction), and the dashboard's sums of ledger amounts are rounded
      to the nearest double after every operation, as the code rounds
      them ([fl], [fl_mul], [fl_add]).
    - A string is the sequence of its UTF-8 bytes.  [toLowerCase] lowers
      the letters below U+0180; beyond, where the code lowers every cased
      letter, the model leaves the letters as they are.
    - An optional field ([price?], [changeType?]) is an [option].
    - A React state updater [setX(prev => ...)] computes the next state
      from the state left by the updaters queued before it, whenever it
      runs.  React runs the updater of a handler's [setInventory] either
      inside the call (it does when the component has no update pending)
      or later, when it renders: the environment says which
      ([eagerState]).  What the updater writes to the handler's locals
      ([total], [totalOutcome], the price of a sale line) is there when
      the handler reads it only in the first case.  The objects an
      updater mutates in place are shared with the previous snapshot and
      with the record that holds them; the embedding returns the state
      once rendered, which is what the next handler reads.  Every updater
      runs once.
    - The clock, [Math.random] and [daysAgo] are read from an environment
      record.
    - A [TypeError] raised by the handler or by its updater is the result
      [Throws]. *)

From Stdlib Require Import Ascii String QArith Qround Qabs Qpower Lqa Lia.
From stdpp Require Import base list strings pretty.

Open Scope Q_scope.
Open Scope string_scope.
Open Scope list_scope.

(** ** JavaScript primitives *)

Module JS.

Definition number : Type := Q.

(** [!x] for an optional number: [undefined] and [0] are falsy. *)
Definition falsy (x : option number) : bool :=
  match x with
  | Some v => Qeq_bool v 0
  | None => true
  end.

(** [x || d] where [x] is an optional number and [d] a number. *)
Definition or_else (x : option number) (d : number) : number :=
  match x with
  | Some v => if Qeq_bool v 0 then d else v
  | None => d
  end.

(** [x || d] where both are numbers. *)
Definition num_or (x d : number) : number :=
  if Qeq_bool x 0 then d else x.

(** [Math.max(a, b)]. *)
Definition Math_max (a b : number) : number :=
  if Qle_bool a b then b else a.

(** [Math.round(x)]: the integer [floor (x + 1/2)]. *)
Definition Math_round (x : number) : number :=
  inject_Z (Qfloor (x + (1 # 2))).

(** [a > b]. *)
Definition gt (a b : number) : bool := negb (Qle_bool a b).

(** The exponent of the binade of a non-zero [x]: the [e] with
    [2^e <= |x| < 2^(e+1)]. *)
Definition ilog2 (x : Q) : Z :=
  let e := (Z.log2 (Z.abs (Qnum x)) - Z.log2 (Zpos (Qden x)))%Z in
  if Qle_bool (2 ^ e) (Qabs x) then e else (e - 1)%Z.

(** The whole number nearest to [x], the even one when two are as near. *)
Definition roundTiesToEven (x : Q) : Z :=
  let f := Qfloor x in
  match Qcompare (x - inject_Z f) (1 # 2) with
  | Lt => f
  | Gt => (f + 1)%Z
  | Eq => if Z.even f then f else (f + 1)%Z
  end.

(** The double (IEEE 754 binary64: 53 significant bits, least exponent
    -1074) nearest to the exact result [x] of an operation, ties to even;
    a result beyond the largest double, which would be an infinity, is
    outside the model. *)
Definition fl (x : Q) : number :=
  if Qeq_bool x 0 then 0
  else
    let u := Z.max (ilog2 x - 52) (-1074) in
    Qred (inject_Z (roundTiesToEven (x / 2 ^ u)) * 2 ^ u).

(** [a * b] and [a + b] on doubles. *)
Definition fl_mul (a b : number) : number := fl (a * b).
Definition fl_add (a b : number) : number := fl (a + b).

(** The literal [0.8]. *)
Definition lit_0_8 : number := fl (8 # 10).

(** The lower-case form of a code point below U+0180 (Basic Latin, Latin-1
    Supplement, Latin Extended-A), as [toLowerCase] gives it: A-Z and
    U+00C0 to U+00DE without the multiplication sign U+00D7 have their
    small letter 32 places further; from U+0100 on capital and small
    letters alternate, the capital first, on even code points up to U+0137
    and from U+014A, on odd ones from U+0139 to U+0148 and from U+0179,
    but for U+0130, whose lower-case form is i followed by U+0307, and
    U+0178, whose small letter is U+00FF.  Any other code point is
    returned as it is. *)
Definition lower_codepoint (n : N) : list N :=
  if ((65 <=? n) && (n <=? 90)
      || (192 <=? n) && (n <=? 222) && negb (n =? 215))%N%bool then [(n + 32)%N]
  else if (n =? 304)%N then [105%N; 775%N]
  else if (n =? 376)%N then [255%N]
  else if (((256 <=? n) && (n <=? 303) || (306 <=? n) && (n <=? 311)
            || (330 <=? n) && (n <=? 375)) && N.even n)%N%bool then [(n + 1)%N]
  else if (((313 <=? n) && (n <=? 328) || (377 <=? n) && (n <=? 382))
           && N.odd n)%N%bool then [(n + 1)%N]
  else [n].

(** The UTF-8 bytes of code points below U+0800. *)
Fixpoint utf8 (l : list N) : string :=
  match l with
  | [] => EmptyString
  | n :: rest =>
      if (n <? 128)%N then String (ascii_of_N n) (utf8 rest)
      else String (ascii_of_N (192 + n / 64)) (String (ascii_of_N (128 + n mod 64)) (utf8 rest))
  end.

(** [s.toLowerCase()] on the UTF-8 bytes of [s]: the characters of one
    byte and of two bytes are lowered by [lower_codepoint]; longer
    sequences (from U+0800 on) are copied. *)
Fixpoint toLowerCase (s : string) : string :=
  match s with
  | EmptyString => EmptyString
  | String c s' =>
      let n := N_of_ascii c in
      if (n <? 128)%N then utf8 (lower_codepoint n) +:+ toLowerCase s'
      else
        match s' with
        | String d s'' =>
            let m := N_of_ascii d in
            if ((194 <=? n) && (n <=? 223) && (128 <=? m) && (m <=? 191))%N%bool
            then utf8 (lower_codepoint ((n - 192) * 64 + (m - 128))%N) +:+ toLowerCase s''
            else String c (toLowerCase s')
        | EmptyString => String c EmptyString
        end
  end.

(** [s.includes(q)]: [q] occurs in [s] at some position. *)
Fixpoint includes (s q : string) : bool :=
  (String.prefix q s
   || match s with
      | EmptyString => false
      | String _ s' => includes s' q
      end)%bool.

(** [a === b] on strings. *)
Definition str_eq (a b : string) : bool := String.eqb a b.

(** [l.findIndex(p)] together with the element found: [None] is [-1]. *)
Definition findIndex {A} (p : A → bool) (l : list A) : option (nat * A) :=
  list_find (λ x, p x = true) l.

(** [l.find(p)]. *)
Definition find {A} (p : A → bool) (l : list A) : option A :=
  snd <$> findIndex p l.

(** The outcome of a handler: a next state, or a thrown [TypeError]. *)
Inductive Result (A : Type) : Type :=
| Ok (a : A)
| Throws.
Arguments Ok {A} a.
Arguments Throws {A}.

End JS.
Import JS.

(** ** Data model ([src/types.ts]) *)

Record InventoryItem : Type := mkInventoryItem {
  item_id : string;
  item_name : string;
  item_quantity : number;
  item_unit : string;
  item_price : number;
  item_expiryDate : option string;
  item_image : option string
}.

Record SaleItem : Type := mkSaleItem {
  sale_name : string;
  sale_quantity : number;
  sale_price : option number
}.

Record SaleRecord : Type := mkSaleRecord {
  rec_id : string;
  rec_items : list SaleItem;
  rec_totalAmount : number;
  rec_date : string
}.

Record ExpenseRecord : Type := mkExpenseRecord {
  exp_id : string;
  exp_description : string;
  exp_amount : number;
  exp_date : string
}.

(** One line of an action payload ([data.items[k]], typed [any] in the
    source; the response schema of the interpretation service gives it
    these four fields). *)
Record PayloadItem : Type := mkPayloadItem {
  req_name : string;
  req_quantity : number;
  req_changeType : option string;
  req_price : option number
}.

(** The payload [data] of an action is [option Payload]: [None] is
    [null]/[undefined], and [items = None] is a payload without its
    [items] array. *)
Record Payload : Type := mkPayload {
  items : option (list PayloadItem)
}.

Inductive Tab : Type := chat | dashboard | calculator.

(** The state held by [App]: the five [useState] cells the handlers write. *)
Record AppState : Type := mkAppState {
  inventory : list InventoryItem;
  sales : list SaleRecord;
  expenses : list ExpenseRecord;
  cart : list SaleItem;
  activeTab : Tab
}.

(** What the handlers read from the outside world. *)
Record Env : Type := mkEnv {
  Date_now : string;           (* Date.now().toString() *)
  Date_iso : string;           (* new Date().toISOString() *)
  Math_random : nat → string;  (* the k-th Math.random() of a dispatch *)
  daysAgo : Z → string;
  eagerState : bool            (* React runs the updater of the handler's
                                  setInventory inside the call *)
}.

Definition set_quantity (it : InventoryItem) (q : number) : InventoryItem :=
  mkInventoryItem (item_id it) (item_name it) q (item_unit it) (item_price it)
                  (item_expiryDate it) (item_image it).

Definition set_sale_quantity (s : SaleItem) (q : number) : SaleItem :=
  mkSaleItem (sale_name s) q (sale_price s).

Definition set_sale_price (s : SaleItem) (p : number) : SaleItem :=
  mkSaleItem (sale_name s) (sale_quantity s) (Some p).

Definition set_inventory (st : AppState) (inv : list InventoryItem) : AppState :=
  mkAppState inv (sales st) (expenses st) (cart st) (activeTab st).
Definition set_sales (st : AppState) (s : list SaleRecord) : AppState :=
  mkAppState (inventory st) s (expenses st) (cart st) (activeTab st).
Definition set_expenses (st : AppState) (e : list ExpenseRecord) : AppState :=
  mkAppState (inventory st) (sales st) e (cart st) (activeTab st).
Definition set_cart (st : AppState) (c : list SaleItem) : AppState :=
  mkAppState (inventory st) (sales st) (expenses st) c (activeTab st).
Definition set_activeTab (st : AppState) (t : Tab) : AppState :=
  mkAppState (inventory st) (sales st) (expenses st) (cart st) t.

(** ** The handlers of [App] ([src/App.tsx]) *)

(** The mock catalogue the application starts from. *)
Definition INITIAL_INVENTORY (env : Env) : list InventoryItem :=
  [ mkInventoryItem "1" "Marie Gold Biscuits" 45 "packet" 10 (Some (daysAgo env (-90)))
      (Some "https://images.unsplash.com/photo-1558961363-fa8fdf82db35?w=300&q=80");
    mkInventoryItem "2" "Maggi Noodles" 8 "packet" 14 (Some (daysAgo env (-120)))
      (Some "https://images.unsplash.com/photo-1612929633738-8fe44f7ec841?w=300&q=80");
    mkInventoryItem "3" "Tata Salt" 20 "kg" 25 (Some (daysAgo env (-365)))
      (Some "https://images.unsplash.com/photo-1518110925495-5fe26535db2f?w=300&q=80");
    mkInventoryItem "4" "Red Label Tea" 4 "box" 120 (Some (daysAgo env (-500)))
      (Some "https://images.unsplash.com/photo-1594631252845-29fc4cc8cde9?w=300&q=80");
    mkInventoryItem "5" "Surf Excel" 30 "sachet" 5 (Some (daysAgo env (-730)))
      (Some "https://images.unsplash.com/photo-1527015098135-e5f8f3b7d722?w=300&q=80");
    mkInventoryItem "6" "Amul Milk" 5 "packet" 28 (Some (daysAgo env (-1)))
      (Some "https://images.unsplash.com/photo-1550583724-b2692b85b150?w=300&q=80");
    mkInventoryItem "7" "Bread" 5 "loaf" 40 (Some (daysAgo env (-2)))
      (Some "https://images.unsplash.com/photo-1509440159596-0249088772ff?w=300&q=80") ].

Definition INITIAL_EXPENSES (env : Env) : list ExpenseRecord :=
  [ mkExpenseRecord "e1" "Restock Maggi" 500 (daysAgo env 2);
    mkExpenseRecord "e2" "Shop Electricity Bill" 1200 (daysAgo env 15) ].

(** The name test of the sale and cart paths:
    [i.name.toLowerCase().includes(query.toLowerCase())]. *)
Definition nameIncludes (query : string) (i : InventoryItem) : bool :=
  includes (toLowerCase (item_name i)) (toLowerCase query).

(** The name test of the inventory-update path: the same test, or the
    other way round. *)
Definition nameIncludesEitherWay (query : string) (i : InventoryItem) : bool :=
  (includes (toLowerCase (item_name i)) (toLowerCase query)
   || includes (toLowerCase query) (toLowerCase (item_name i)))%bool.

(** *** [updateInventoryAndRecordSale] *)

(** The running values of the [forEach] over [itemsToSell]: the inventory
    copy, [total], and the lines already visited (a visited line may have
    had its [price] filled in). *)
Record SaleLoop : Type := mkSaleLoop {
  loop_inv : list InventoryItem;
  loop_total : number;
  loop_items : list SaleItem
}.

(** [soldItem.price] read as a number, once the line has one. *)
Definition price_of (s : SaleItem) : number :=
  match sale_price s with
  | Some p => p
  | None => 0
  end.

Definition sellLine (acc : SaleLoop) (soldItem : SaleItem) : SaleLoop :=
  match findIndex (nameIncludes (sale_name soldItem)) (loop_inv acc) with
  | Some (idx, it) =>
      let newInv :=
        <[idx := set_quantity it (Math_max 0 (item_quantity it - sale_quantity soldItem))]>
          (loop_inv acc) in
      let soldItem' :=
        if falsy (sale_price soldItem) then set_sale_price soldItem (item_price it)
        else soldItem in
      mkSaleLoop newInv
                 (loop_total acc + price_of soldItem' * sale_quantity soldItem')
                 (loop_items acc ++ [soldItem'])
  | None =>
      mkSaleLoop (loop_inv acc) (loop_total acc) (loop_items acc ++ [soldItem])
  end.

(** [itemsToSell.reduce((a, b) => a + ((b.price || 0) * b.quantity), 0)]. *)
Definition sumLinePrices (l : list SaleItem) : number :=
  fold_left (λ a b, a + or_else (sale_price b) 0 * sale_quantity b) l 0.

(** [loop] is the run of the updater of [setInventory].  [newSale] is built
    right after the call: [total] and the prices of the lines are read as
    the updater left them if it has run, and as they were before if it has
    not.  The record holds the array [itemsToSell] itself, so that once the
    state is rendered its lines are the lines the updater filled in. *)
Definition updateInventoryAndRecordSale (env : Env) (itemsToSell : list SaleItem)
    (st : AppState) : AppState :=
  let loop := fold_left sellLine itemsToSell (mkSaleLoop (inventory st) 0 []) in
  let total := if eagerState env then loop_total loop else 0 in
  let linesRead := if eagerState env then loop_items loop else itemsToSell in
  let newSale :=
    mkSaleRecord (Date_now env) (loop_items loop)
                 (num_or total (sumLinePrices linesRead))
                 (Date_iso env) in
  set_sales (set_inventory st (loop_inv loop)) (sales st ++ [newSale]).

(** *** [handleQuickRestock], [handleAddNewItem], [handleSaleComplete] *)

Definition quickRestockExpense (env : Env) (item : InventoryItem) : ExpenseRecord :=
  mkExpenseRecord (Date_now env) ("Quick Restock: " +:+ item_name item)
                  (fl_mul (fl_mul (item_price item) lit_0_8) 10) (Date_iso env).

Definition handleQuickRestock (env : Env) (itemName : string) (st : AppState) : AppState :=
  let hit (item : InventoryItem) := str_eq (item_name item) itemName in
  set_expenses
    (set_inventory st
       (map (λ item, if hit item then set_quantity item (item_quantity item + 10) else item)
            (inventory st)))
    (expenses st ++ map (quickRestockExpense env) (filter (λ item, hit item = true) (inventory st))).

Definition handleAddNewItem (newItem : InventoryItem) (st : AppState) : AppState :=
  set_inventory st (newItem :: inventory st).

Definition handleSaleComplete (env : Env) (items : list SaleItem) (st : AppState) : AppState :=
  set_cart (updateInventoryAndRecordSale env items st) [].

(** *** [processCartItems] *)

Definition processCartItems (inv : list InventoryItem) (data : option Payload)
    : list SaleItem :=
  match data with
  | None => []
  | Some d =>
      match items d with
      | None => []
      | Some its =>
          map (λ item,
                 let invItem := find (nameIncludes (req_name item)) inv in
                 mkSaleItem (req_name item) (req_quantity item)
                   (Some (or_else (item_price <$> invItem)
                                  (or_else (req_price item) 0))))
              its
      end
  end.

(** *** [handleAiAction] *)

(** [newItem.changeType === s]. *)
Definition changeTypeIs (newItem : PayloadItem) (s : string) : bool :=
  match req_changeType newItem with
  | Some c => str_eq c s
  | None => false
  end.

(** What one pass of the [forEach] over [data.items] leaves behind: the
    inventory copy and the two locals [quantityAdded], [currentPrice]. *)
Record LineOutcome : Type := mkLineOutcome {
  newInv : list InventoryItem;
  quantityAdded : number;
  currentPrice : number
}.

(** The body of the [forEach] of the UPDATE_INVENTORY / RESTOCK branch, up
    to the cost accumulation.  [k] numbers the line, for [Math.random]. *)
Definition inventoryLine (env : Env) (k : nat) (newItem : PayloadItem)
    (inv : list InventoryItem) : LineOutcome :=
  match findIndex (nameIncludesEitherWay (req_name newItem)) inv with
  | Some (existingIndex, existing) =>
      let currentPrice := item_price existing in
      let oldQty := item_quantity existing in
      if changeTypeIs newItem "subtract" then
        mkLineOutcome
          (<[existingIndex :=
               set_quantity existing (Math_max 0 (item_quantity existing - req_quantity newItem))]> inv)
          0 currentPrice
      else if changeTypeIs newItem "set" then
        mkLineOutcome
          (<[existingIndex := set_quantity existing (req_quantity newItem)]> inv)
          (if gt (req_quantity newItem) oldQty then req_quantity newItem - oldQty else 0)
          currentPrice
      else
        mkLineOutcome
          (<[existingIndex :=
               set_quantity existing (item_quantity existing + req_quantity newItem)]> inv)
          (req_quantity newItem) currentPrice
  | None =>
      let currentPrice := or_else (req_price newItem) 50 in
      if negb (changeTypeIs newItem "subtract") then
        mkLineOutcome
          (inv ++ [ mkInventoryItem (Date_now env +:+ Math_random env k)
                      (req_name newItem) (req_quantity newItem) "unit"
                      (or_else (req_price newItem) 0)
                      (Some (daysAgo env (-180)))
                      (Some "https://images.unsplash.com/photo-1576618148400-f54bed99fcf8?w=300&q=80") ])
          (req_quantity newItem) currentPrice
      else
        mkLineOutcome inv 0 currentPrice
  end.

(** The whole [forEach]: the lines in order, threading the inventory copy
    and [totalOutcome]. *)
Fixpoint inventoryLines (env : Env) (k : nat) (its : list PayloadItem)
    (inv : list InventoryItem) (totalOutcome : number)
    : list InventoryItem * number :=
  match its with
  | [] => (inv, totalOutcome)
  | newItem :: rest =>
      let o := inventoryLine env k newItem inv in
      inventoryLines env (S k) rest (newInv o)
        (if gt (quantityAdded o) 0
         then fl_add totalOutcome (fl_mul (quantityAdded o) (fl_mul (currentPrice o) lit_0_8))
         else totalOutcome)
  end.

Definition restockExpense (env : Env) (n : nat) (totalOutcome : number) : ExpenseRecord :=
  mkExpenseRecord (Date_now env) ("Restock: " +:+ pretty n +:+ " items")
                  (Math_round totalOutcome) (Date_iso env).

(** The [forEach] of the two cart branches (the source repeats it word for
    word under ADD_TO_CART / UPDATE_CART and VIEW_BILL / NAVIGATE_BILL). *)
Definition mergeLine (newCart : list SaleItem) (item : SaleItem) : list SaleItem :=
  match findIndex (λ p, str_eq (sale_name p) (sale_name item)) newCart with
  | Some (i, existing) =>
      <[i := set_sale_quantity existing (sale_quantity existing + sale_quantity item)]> newCart
  | None => newCart ++ [item]
  end.

Definition mergeCart (prev items : list SaleItem) : list SaleItem :=
  fold_left mergeLine items prev.

(** [data.items] as the sale lines [updateInventoryAndRecordSale] reads. *)
Definition asSaleItem (item : PayloadItem) : SaleItem :=
  mkSaleItem (req_name item) (req_quantity item) (req_price item).

(** In the UPDATE_INVENTORY / RESTOCK branch [totalOutcome] is written by
    the updater of [setInventory] and tested right after the call: the test
    reads the sum if the updater has run, and 0 if it has not. *)
Definition handleAiAction (env : Env) (actionType : string) (data : option Payload)
    (st : AppState) : Result AppState :=
  if (str_eq actionType "UPDATE_INVENTORY" || str_eq actionType "RESTOCK")%bool then
    match data with
    | None => Throws
    | Some d =>
        match items d with
        | None => Throws
        | Some its =>
            let '(inv, outcome) := inventoryLines env 0 its (inventory st) 0 in
            let st' := set_inventory st inv in
            let totalOutcome := if eagerState env then outcome else 0 in
            if gt totalOutcome 0
            then Ok (set_expenses st'
                       (expenses st ++ [restockExpense env (length its) totalOutcome]))
            else Ok st'
        end
    end
  else if str_eq actionType "RECORD_SALE" then
    match data with
    | None => Throws
    | Some d =>
        match items d with
        | None => Throws
        | Some its => Ok (updateInventoryAndRecordSale env (map asSaleItem its) st)
        end
    end
  else if (str_eq actionType "ADD_TO_CART" || str_eq actionType "UPDATE_CART")%bool then
    let items := processCartItems (inventory st) data in
    Ok (set_cart st (mergeCart (cart st) items))
  else if (str_eq actionType "VIEW_BILL" || str_eq actionType "NAVIGATE_BILL")%bool then
    let items := processCartItems (inventory st) data in
    Ok (set_activeTab (set_cart st (mergeCart (cart st) items)) calculator)
  else if str_eq actionType "COMPLETE_SALE" then
    let items := processCartItems (inventory st) data in
    Ok (updateInventoryAndRecordSale env items st)
  else Ok st.

(** ** The cart operations of the bill calculator ([BillCalculator]) *)

Definition addToCart (item : InventoryItem) (qtyToAdd : number)
    (prev : list SaleItem) : list SaleItem :=
  match find (λ i, str_eq (sale_name i) (item_name item)) prev with
  | Some _ =>
      map (λ i, if str_eq (sale_name i) (item_name item)
                then set_sale_quantity i (sale_quantity i + qtyToAdd) else i) prev
  | None => prev ++ [mkSaleItem (item_name item) qtyToAdd (Some (item_price item))]
  end.

Definition updateQty (name : string) (delta : number)
    (prev : list SaleItem) : list SaleItem :=
  map (λ item,
         if str_eq (sale_name item) name then
           let newQty := sale_quantity item + delta in
           if Qle_bool newQty 0 then item else set_sale_quantity item newQty
         else item) prev.

Definition removeItem (name : string) (prev : list SaleItem) : list SaleItem :=
  filter (λ i, str_eq (sale_name i) name = false) prev.

(** The [forEach] of [handleVoiceInput]: one [setCart] per recognised line,
    priced against the inventory the calculator was rendered with. *)
Definition voiceLine (inv : list InventoryItem) (prev : list SaleItem)
    (voiceItem : PayloadItem) : list SaleItem :=
  let invItem := find (nameIncludes (req_name voiceItem)) inv in
  let price := or_else (item_price <$> invItem) (or_else (req_price voiceItem) 0) in
  match find (λ p, str_eq (sale_name p) (req_name voiceItem)) prev with
  | Some _ =>
      map (λ p, if str_eq (sale_name p) (req_name voiceItem)
                then set_sale_quantity p (sale_quantity p + req_quantity voiceItem) else p) prev
  | None => prev ++ [mkSaleItem (req_name voiceItem) (req_quantity voiceItem) (Some price)]
  end.

Definition handleVoiceInput (inv : list InventoryItem) (its : list PayloadItem)
    (prev : list SaleItem) : list SaleItem :=
  fold_left (voiceLine inv) its prev.

(** The minus button of the cart line at position [idx]:
    [item.quantity > 1 ? updateQty(item.name, -1) : removeItem(item.name)]. *)
Definition minusButton (idx : nat) (prev : list SaleItem) : list SaleItem :=
  match prev !! idx with
  | Some item =>
      if gt (sale_quantity item) 1 then updateQty (sale_name item) (-1) prev
      else removeItem (sale_name item) prev
  | None => prev
  end.

(** The plus button of the cart line at position [idx]. *)
Definition plusButton (idx : nat) (prev : list SaleItem) : list SaleItem :=
  match prev !! idx with
  | Some item => updateQty (sale_name item) 1 prev
  | None => prev
  end.

(** [handleCheckout]: nothing on an empty cart, else [onComplete(cart, _)],
    which is [handleSaleComplete]. *)
Definition handleCheckout (env : Env) (st : AppState) : AppState :=
  match cart st with
  | [] => st
  | _ :: _ => handleSaleComplete env (cart st) st
  end.

(** ** The application as a transition system *)

(** What can happen to the state: an action record handed over by the chat,
    or one of the direct user actions. *)
Inductive Event : Type :=
| AiAction (actionType : string) (data : option Payload)
| QuickRestock (itemName : string)
| AddNewItem (newItem : InventoryItem)
| CatalogAdd (item : InventoryItem)
| MinusClick (idx : nat)
| PlusClick (idx : nat)
| VoiceItems (its : list PayloadItem)
| Checkout.

Definition step (env : Env) (st : AppState) (e : Event) : Result AppState :=
  match e with
  | AiAction actionType data => handleAiAction env actionType data st
  | QuickRestock itemName => Ok (handleQuickRestock env itemName st)
  | AddNewItem newItem => Ok (handleAddNewItem newItem st)
  | CatalogAdd item => Ok (set_cart st (addToCart item 1 (cart st)))
  | MinusClick idx => Ok (set_cart st (minusButton idx (cart st)))
  | PlusClick idx => Ok (set_cart st (plusButton idx (cart st)))
  | VoiceItems its => Ok (set_cart st (handleVoiceInput (inventory st) its (cart st)))
  | Checkout => Ok (handleCheckout env st)
  end.

(** A run handles the events one after the other, each under the
    environment of its moment; a thrown error ends it. *)
Fixpoint run (st : AppState) (evs : list (Env * Event)) : Result AppState :=
  match evs with
  | [] => Ok st
  | (env, e) :: rest =>
      match step env st e with
      | Ok st' => run st' rest
      | Throws => Throws
      end
  end.

(** The state the application starts in (the synthetic sales history, which
    is random, is a parameter). *)
Definition initialState (env : Env) (history : list SaleRecord) : AppState :=
  mkAppState (INITIAL_INVENTORY env) history (INITIAL_EXPENSES env) [] calculator.

(** ** Concrete data for the worked examples *)

(** A moment at which React runs the updater inside the call, and the same
    moment with the updater left for the next render. *)
Definition demoEnv : Env :=
  mkEnv "1700000000000" "2023-11-14T22:13:20.000Z"
        (λ k, "0." +:+ pretty k) (λ d, "day" +:+ pretty d) true.

Definition laterEnv : Env :=
  mkEnv "1700000000000" "2023-11-14T22:13:20.000Z"
        (λ k, "0." +:+ pretty k) (λ d, "day" +:+ pretty d) false.

Definition demoState : AppState := initialState demoEnv [].

Definition amulMilk : InventoryItem :=
  mkInventoryItem "6" "Amul Milk" 5 "packet" 28 (Some (daysAgo demoEnv (-1)))
    (Some "https://images.unsplash.com/photo-1550583724-b2692b85b150?w=300&q=80").

Definition maggiNoodles : InventoryItem :=
  mkInventoryItem "2" "Maggi Noodles" 8 "packet" 14 (Some (daysAgo demoEnv (-120)))
    (Some "https://images.unsplash.com/photo-1612929633738-8fe44f7ec841?w=300&q=80").

Definition bread : InventoryItem :=
  mkInventoryItem "7" "Bread" 5 "loaf" 40 (Some (daysAgo demoEnv (-2)))
    (Some "https://images.unsplash.com/photo-1509440159596-0249088772ff?w=300&q=80").

(** Payload lines as the interpretation service sends them. *)
Definition line (name : string) (quantity : number) : PayloadItem :=
  mkPayloadItem name quantity None None.
Definition lineOf (name : string) (quantity : number) (changeType : string) : PayloadItem :=
  mkPayloadItem name quantity (Some changeType) None.
Definition payload (its : list PayloadItem) : option Payload :=
  Some (mkPayload (Some its)).

(** ** Item resolution *)

(** [q] occurs somewhere in [s]. *)
Definition substring_of (q s : string) : Prop := ∃ a b, s = a +:+ q +:+ b.

(** The resolver in the words of the specification: the first catalogue
    entry, in catalogue order, such that, ignoring case, the query is a
    substring of its name or its name is a substring of the query. *)
Fixpoint resolve (queryName : string) (catalog : list InventoryItem)
    : option InventoryItem :=
  match catalog with
  | [] => None
  | i :: rest =>
      if (includes (toLowerCase (item_name i)) (toLowerCase queryName)
          || includes (toLowerCase queryName) (toLowerCase (item_name i)))%bool
      then Some i
      else resolve queryName rest
  end.

(** ** Cost estimation, in the words of the specification *)

(** [estimateCost(priceUsed, quantityDelta)]: 80% of the selling price per
    unit added. *)
Definition estimateCost (priceUsed quantityDelta : number) : number :=
  priceUsed * 0.8 * quantityDelta.

(** The outcomes of the lines of one action record, each line applied to
    the inventory the previous lines left. *)
Fixpoint lineOutcomes (env : Env) (k : nat) (its : list PayloadItem)
    (inv : list InventoryItem) : list LineOutcome :=
  match its with
  | [] => []
  | newItem :: rest =>
      let o := inventoryLine env k newItem inv in
      o :: lineOutcomes env (S k) rest (newInv o)
  end.

(** The aggregated cost of an action record: the estimated cost of every
    line whose quantity delta is positive, summed. *)
Fixpoint aggregateCost (os : list LineOutcome) : number :=
  match os with
  | [] => 0
  | o :: rest =>
      (if gt (quantityAdded o) 0
       then estimateCost (currentPrice o) (quantityAdded o) else 0)
      + aggregateCost rest
  end.

(** The same estimate and the same aggregate as the doubles give them:
    every product and every sum rounded, the lines taken in order from the
    running sum [acc]. *)
Definition estimateCostFl (priceUsed quantityDelta : number) : number :=
  fl_mul quantityDelta (fl_mul priceUsed lit_0_8).

Fixpoint aggregateCostFl (os : list LineOutcome) (acc : number) : number :=
  match os with
  | [] => acc
  | o :: rest =>
      aggregateCostFl rest
        (if gt (quantityAdded o) 0
         then fl_add acc (estimateCostFl (currentPrice o) (quantityAdded o))
         else acc)
  end.

(** ** Sale totals *)


(** The resolver of the sale path, as a function of the query. *)
Definition resolveForSale (queryName : string) (catalog : list InventoryItem)
    : option InventoryItem :=
  find (nameIncludes queryName) catalog.

(** The price [updateInventoryAndRecordSale] charges for a line: the line's
    own price when it has a non-zero one, else the price of the item its
    name resolves to, else 0. *)
Definition chargedPrice (inv : list InventoryItem) (l : SaleItem) : number :=
  match resolveForSale (sale_name l) inv with
  | Some it => if falsy (sale_price l) then item_price it else price_of l
  | None => or_else (sale_price l) 0
  end.

Definition chargedTotal (inv : list InventoryItem) (lines : list SaleItem) : number :=
  fold_right (λ l acc, chargedPrice inv l * sale_quantity l + acc) 0 lines.

(** A cart line as the sale record keeps it: a resolved line without a
    price of its own has the item's price filled in. *)
Definition pricedLine (inv : list InventoryItem) (l : SaleItem) : SaleItem :=
  match resolveForSale (sale_name l) inv with
  | Some it => if falsy (sale_price l) then set_sale_price l (item_price it) else l
  | None => l
  end.

(** The part of the total that comes from resolved lines. *)
Definition resolvedTotal (inv : list InventoryItem) (lines : list SaleItem) : number :=
  fold_right
    (λ l acc,
       match resolveForSale (sale_name l) inv with
       | Some _ => price_of (pricedLine inv l) * sale_quantity l
       | None => 0
       end + acc)
    0 lines.

(** Two inventories that list the same names and prices in the same order. *)
Definition sameCatalog (a b : list InventoryItem) : Prop :=
  Forall2 (λ x y, item_name x = item_name y ∧ item_price x = item_price y) a b.


(** ** Invariants and the events that keep them *)

(** The quantity a cart holds under a name. *)
Definition cartQty (name : string) (c : list SaleItem) : number :=
  fold_right (λ l acc, (if str_eq (sale_name l) name then sale_quantity l else 0) + acc) 0 c.

(** A well-formed cart: one line per name, every quantity positive. *)
Definition cartOK (c : list SaleItem) : Prop :=
  NoDup (sale_name <$> c) ∧ Forall (λ l, 0 < sale_quantity l) c.

(** A well-formed inventory: no negative quantity. *)
Definition inventoryOK (inv : list InventoryItem) : Prop :=
  Forall (λ it, 0 <= item_quantity it) inv.

(** The lines of a payload, none when the payload or its array is missing. *)
Definition payloadLines (data : option Payload) : list PayloadItem :=
  match data with
  | Some d => match items d with Some its => its | None => [] end
  | None => []
  end.

Definition isInventoryKind (actionType : string) : bool :=
  (str_eq actionType "UPDATE_INVENTORY" || str_eq actionType "RESTOCK")%bool.

Definition isCartKind (actionType : string) : bool :=
  (str_eq actionType "ADD_TO_CART" || str_eq actionType "UPDATE_CART"
   || str_eq actionType "VIEW_BILL" || str_eq actionType "NAVIGATE_BILL")%bool.

(** An event that cannot bring a quantity of the inventory below zero: the
    lines of an inventory action that are not 'subtract' lines ask for a
    quantity that is not negative, and so does a product added by hand. *)
Definition inventorySafe (e : Event) : Prop :=
  match e with
  | AiAction actionType data =>
      isInventoryKind actionType = true →
      Forall (λ it, changeTypeIs it "subtract" = false → 0 <= req_quantity it)
             (payloadLines data)
  | AddNewItem newItem => 0 <= item_quantity newItem
  | _ => True
  end.

(** An event that only puts positive quantities into the cart. *)
Definition cartSafe (e : Event) : Prop :=
  match e with
  | AiAction actionType data =>
      isCartKind actionType = true →
      Forall (λ it, 0 < req_quantity it) (payloadLines data)
  | VoiceItems its => Forall (λ it, 0 < req_quantity it) its
  | _ => True
  end.

(** ** The read-outs of the bill calculator, the chat and the dashboard *)

(** [a < b]. *)
Definition js_lt (a b : number) : bool := gt b a.

(** [BillCalculator]: the two totals shown under the cart,
    [cart.reduce((sum, item) => sum + ((item.price || 0) * item.quantity), 0)]
    and [cart.reduce((sum, item) => sum + item.quantity, 0)]. *)
Definition totalAmount (c : list SaleItem) : number :=
  fold_left (λ sum item, sum + or_else (sale_price item) 0 * sale_quantity item) c 0.


(** [BillCalculator]: the catalogue as filtered by the search box. *)
Definition filteredInventory (inv : list InventoryItem) (searchTerm : string)
    : list InventoryItem :=
  filter (λ i, nameIncludes searchTerm i = true) inv.

(** [ChatInterface.handleSuggestedAction], the SHOW_TOTAL branch: the
    total quoted in the chat, priced against the inventory. *)
Definition showTotal (inv : list InventoryItem) (data : option Payload) : number :=
  match data with
  | None => 0
  | Some d =>
      match items d with
      | None => 0
      | Some its =>
          fold_left
            (λ total item,
               let price :=
                 match find (nameIncludes (req_name item)) inv with
                 | Some invItem => item_price invItem
                 | None => or_else (req_price item) 0
                 end in
               total + req_quantity item * price)
            its 0
      end
  end.

(** [Dashboard] and [getInitialStockStatus]: the products running low,
    [inventory.filter(i => i.quantity < 10)]. *)
Definition restockNeeded (inv : list InventoryItem) : list InventoryItem :=
  filter (λ i, js_lt (item_quantity i) 10 = true) inv.

(** [Dashboard]: [isToday] and the two figures of the day. *)
Definition isToday (todayStr dateStr : string) : bool := String.prefix todayStr dateStr.

Definition todayIncome (todayStr : string) (sl : list SaleRecord) : number :=
  fold_left (λ sum s, fl_add sum (rec_totalAmount s))
            (filter (λ s, isToday todayStr (rec_date s) = true) sl) 0.

Definition todayExpense (todayStr : string) (ex : list ExpenseRecord) : number :=
  fold_left (λ sum e, fl_add sum (exp_amount e))
            (filter (λ e, isToday todayStr (exp_date e) = true) ex) 0.

(** A JavaScript [Map<string, number>]: the entries in insertion order.
    [set] on a key already present overwrites its value in place. *)
Definition JsMap : Type := list (string * number).

Fixpoint Map_get (m : JsMap) (k : string) : option number :=
  match m with
  | [] => None
  | (k', v) :: rest => if str_eq k' k then Some v else Map_get rest k
  end.

Fixpoint Map_set (m : JsMap) (k : string) (v : number) : JsMap :=
  match m with
  | [] => [(k, v)]
  | (k', v') :: rest =>
      if str_eq k' k then (k', v) :: rest else (k', v') :: Map_set rest k v
  end.

(** [Dashboard]: the quantity sold per product name, over all sale records. *)
Definition countItem (m : JsMap) (item : SaleItem) : JsMap :=
  let current := or_else (Map_get m (sale_name item)) 0 in
  Map_set m (sale_name item) (current + sale_quantity item).

Definition productSalesMap (sl : list SaleRecord) : JsMap :=
  fold_left (λ m sale, fold_left countItem (rec_items sale) m) sl [].

(** [arr.sort(cmp)]: the stable sort by a comparator ([cmp a b > 0] puts
    [a] after [b]), as an insertion sort from the right. *)
Fixpoint sortInsert {A} (cmp : A → A → number) (x : A) (l : list A) : list A :=
  match l with
  | [] => [x]
  | y :: rest => if gt (cmp x y) 0 then y :: sortInsert cmp x rest else x :: l
  end.

Definition Array_sort {A} (cmp : A → A → number) (l : list A) : list A :=
  fold_right (sortInsert cmp) [] l.

(** [Dashboard]: the five best sellers,
    [entries.sort((a, b) => b.qty - a.qty).slice(0, 5)]. *)
Definition topSelling (sl : list SaleRecord) : list (string * number) :=
  take 5 (Array_sort (λ a b, b.2 - a.2) (productSalesMap sl)).


(** ** Relations used by the frame properties *)

(** [b] is [a] with, at most, another quantity. *)
Definition sameButQuantity (a b : InventoryItem) : Prop :=
  b = set_quantity a (item_quantity b).


(** The products of [a] are all still in [b], in order and side by side,
    each with, at most, another quantity; [b] may hold more products before
    and after them. *)
Definition persists (a b : list InventoryItem) : Prop :=
  ∃ front mid back, b = front ++ mid ++ back ∧ Forall2 sameButQuantity a mid.

(** The case analysis of [handleAiAction] on a successful dispatch: one
    goal per branch of the source, with the resulting state substituted. *)
Ltac ai_branches env actionType data st :=
  unfold handleAiAction;
  destruct (str_eq actionType "UPDATE_INVENTORY" || str_eq actionType "RESTOCK")%bool;
  [ destruct data as [[[?its|]]|]; cbn [items]; try discriminate;
    destruct (inventoryLines env 0 _ (inventory st) 0) as [?inv ?total] eqn:?Hlines;
    destruct (gt _ 0)
  | destruct (str_eq actionType "RECORD_SALE");
    [ destruct data as [[[?its|]]|]; cbn [items]; try discriminate
    | destruct (str_eq actionType "ADD_TO_CART" || str_eq actionType "UPDATE_CART")%bool;
      [ | destruct (str_eq actionType "VIEW_BILL" || str_eq actionType "NAVIGATE_BILL")%bool;
          [ | destruct (str_eq actionType "COMPLETE_SALE") ] ] ] ];
  intros [= <-].


(** A list of (name, quantity) entries in which no entry has a larger
    quantity than an entry before it. *)
Fixpoint descending (l : list (string * number)) : Prop :=
  match l with
  | [] => True
  | x :: rest => Forall (λ y, y.2 <= x.2) rest ∧ descending rest
  end.

(** ** The size of a compressed image ([ChatInterface.compressImage]) *)



(** * Properties *)

(** ** Facts about the primitives *)

Lemma append_cons (c : ascii) (a b : string) :
  String c a +:+ b = String c (a +:+ b).
Proof. reflexivity. Qed.

Lemma append_empty (b : string) : "" +:+ b = b.
Proof. reflexivity. Qed.

Lemma prefix_app (q s : string) :
  String.prefix q s = true ↔ ∃ b, s = q +:+ b.
Proof.
  revert q; induction s as [|d s IH]; intros [|c q]; simpl.
  - split; [intros _; by exists "" | done].
  - split; [done | intros [b Hb]; discriminate].
  - split; [intros _; by exists (String d s) | done].
  - destruct (ascii_dec c d) as [->|Hne].
    + rewrite IH. split; intros [b Hb]; exists b.
      * by rewrite append_cons, Hb.
      * rewrite append_cons in Hb. by injection Hb.
    + split; [done | intros [b Hb]; rewrite append_cons in Hb; congruence].
Qed.

(** [includes] decides the substring relation. *)
Lemma includes_spec (s q : string) :
  includes s q = true ↔ ∃ a b, s = a +:+ q +:+ b.
Proof.
  induction s as [|c s IH].
  - change (includes "" q) with (String.prefix q "" || false)%bool.
    rewrite orb_false_r, prefix_app. split.
    + intros [b Hb]. by exists "", b.
    + intros [a [b Hab]]. destruct a; [by exists b | discriminate].
  - change (includes (String c s) q)
      with (String.prefix q (String c s) || includes s q)%bool.
    rewrite orb_true_iff, prefix_app, IH. split.
    + intros [[b Hb] | [a [b Hab]]].
      * by exists "", b.
      * exists (String c a), b. by rewrite append_cons, Hab.
    + intros [a [b Hab]]. destruct a as [|c' a].
      * left. by exists b.
      * right. exists a, b. rewrite append_cons in Hab. by injection Hab.
Qed.




Lemma Math_max_lower (x : number) : 0 <= Math_max 0 x.
Proof.
  unfold Math_max. destruct (Qle_bool 0 x) eqn:E.
  - by apply Qle_bool_iff.
  - apply Qle_refl.
Qed.

Lemma Math_max_spec (x : number) :
  (0 <= x ∧ Math_max 0 x = x) ∨ (x < 0 ∧ Math_max 0 x = 0).
Proof.
  unfold Math_max. destruct (Qle_bool 0 x) eqn:E.
  - left. split; [by apply Qle_bool_iff | done].
  - right. split; [|done]. apply Qnot_le_lt. intros H.
    apply Qle_bool_iff in H. congruence.
Qed.

Lemma gt_true (a b : number) : gt a b = true ↔ b < a.
Proof.
  unfold gt. rewrite negb_true_iff. split.
  - intros E. apply Qnot_le_lt. intros H. apply Qle_bool_iff in H. congruence.
  - intros H. destruct (Qle_bool a b) eqn:E; [|done].
    apply Qle_bool_iff in E. lra.
Qed.

Lemma gt_false (a b : number) : gt a b = false ↔ a <= b.
Proof.
  unfold gt. rewrite negb_false_iff. apply Qle_bool_iff.
Qed.

(** [Math.round] returns a whole number at distance at most 1/2. *)
Lemma Math_round_nearest (x : number) :
  ∃ z : Z, Math_round x = inject_Z z ∧ x - (1 # 2) < inject_Z z ∧ inject_Z z <= x + (1 # 2).
Proof.
  exists (Qfloor (x + (1 # 2))). split; [done|].
  pose proof (Qfloor_le (x + (1 # 2))) as Hle.
  pose proof (Qlt_floor (x + (1 # 2))) as Hlt.
  rewrite inject_Z_plus in Hlt. change (inject_Z 1) with 1 in Hlt.
  split; lra.
Qed.

(** *** Rounding to the nearest double *)

(** [roundTiesToEven] is within 1/2 of its argument. *)
Lemma roundTiesToEven_error (y : Q) :
  Qabs (inject_Z (roundTiesToEven y) - y) <= 1 # 2.
Proof.
  unfold roundTiesToEven.
  pose proof (Qfloor_le y) as Hle.
  pose proof (Qlt_floor y) as Hlt.
  rewrite inject_Z_plus in Hlt. change (inject_Z 1) with 1 in Hlt.
  apply Qabs_Qle_condition.
  destruct (Qcompare (y - inject_Z (Qfloor y)) (1 # 2)) eqn:E.
  - apply Qeq_alt in E. destruct (Z.even (Qfloor y)).
    + split; lra.
    + rewrite inject_Z_plus. change (inject_Z 1) with 1. split; lra.
  - apply Qlt_alt in E. split; lra.
  - apply Qgt_alt in E. rewrite inject_Z_plus. change (inject_Z 1) with 1. split; lra.
Qed.

Lemma pow2_pos (e : Z) : 0 < 2 ^ e.
Proof. apply Qpower_0_lt. reflexivity. Qed.

Lemma pow2_succ (e : Z) : 2 ^ (e + 1) == 2 * 2 ^ e.
Proof. rewrite Qpower_plus by discriminate. change (2 ^ 1) with 2. ring. Qed.

Lemma pow2_Z (k : Z) : (0 <= k)%Z → inject_Z (2 ^ k) == 2 ^ k.
Proof. intros H. by rewrite Zpower_Qpower. Qed.

Lemma log2_bounds (n : Z) : (0 < n)%Z →
  2 ^ Z.log2 n <= inject_Z n ∧ inject_Z n < 2 ^ (Z.log2 n + 1).
Proof.
  intros Hn. destruct (Z.log2_spec n Hn) as [H1 H2].
  pose proof (Z.log2_nonneg n) as H0.
  rewrite <- !pow2_Z by lia. rewrite <- Zle_Qle, <- Zlt_Qlt.
  replace (Z.log2 n + 1)%Z with (Z.succ (Z.log2 n)) by lia. done.
Qed.

Lemma Qabs_frac (x : Q) :
  Qabs x * inject_Z (Zpos (Qden x)) == inject_Z (Z.abs (Qnum x)).
Proof.
  destruct x as [n d]. unfold Qabs, Qeq, Qmult, inject_Z. simpl. lia.
Qed.

(** [ilog2] is the exponent of the binade. *)
Lemma ilog2_spec (x : Q) :
  ¬ x == 0 → 2 ^ ilog2 x <= Qabs x ∧ Qabs x < 2 ^ (ilog2 x + 1).
Proof.
  intros Hx.
  set (n := Z.abs (Qnum x)). set (d := Zpos (Qden x)).
  assert (Hn : (0 < n)%Z).
  { subst n. destruct x as [[|p|p] dx]; simpl; try lia. exfalso. apply Hx. reflexivity. }
  assert (Hd : (0 < d)%Z) by (subst d; lia).
  destruct (log2_bounds n Hn) as [Hn1 Hn2].
  destruct (log2_bounds d Hd) as [Hd1 Hd2].
  pose proof (Qabs_frac x) as Hf. fold n d in Hf.
  assert (Hdq : 0 < inject_Z d) by (rewrite Zlt_Qlt in Hd; exact Hd).
  set (a := Z.log2 n) in *. set (b := Z.log2 d) in *.
  pose proof (pow2_pos a) as Pa. pose proof (pow2_pos b) as Pb.
  pose proof (pow2_pos (a - b)) as Pab.
  assert (Hab : 2 ^ (a - b) * 2 ^ b == 2 ^ a).
  { rewrite <- Qpower_plus by discriminate. by replace (a - b + b)%Z with a by lia. }
  rewrite pow2_succ in Hn2, Hd2.
  assert (Hlow : 2 ^ (a - b - 1) <= Qabs x ∧ Qabs x < 2 ^ (a - b + 1)).
  { assert (H1 : 2 * 2 ^ (a - b - 1) == 2 ^ (a - b)).
    { rewrite <- pow2_succ. by replace (a - b - 1 + 1)%Z with (a - b)%Z by lia. }
    rewrite pow2_succ.
    pose proof (Qabs_nonneg x) as Hx0.
    split.
    - apply Qnot_lt_le. intros Hc.
      assert (Qabs x * inject_Z d < 2 ^ (a - b - 1) * inject_Z d) by nra.
      assert (2 ^ (a - b - 1) * inject_Z d < 2 ^ (a - b - 1) * (2 * 2 ^ b)).
      { pose proof (pow2_pos (a - b - 1)). nra. }
      nra.
    - apply Qnot_le_lt. intros Hc.
      assert (2 * 2 ^ (a - b) * inject_Z d <= Qabs x * inject_Z d) by nra.
      assert (2 * 2 ^ (a - b) * 2 ^ b <= 2 * 2 ^ (a - b) * inject_Z d) by nra.
      nra. }
  unfold ilog2. fold n d a b.
  destruct (Qle_bool (2 ^ (a - b)) (Qabs x)) eqn:E.
  - apply Qle_bool_iff in E. split; [done | apply Hlow].
  - split; [apply Hlow|].
    replace (a - b - 1 + 1)%Z with (a - b)%Z by lia.
    apply Qnot_le_lt. intros Hc. apply Qle_bool_iff in Hc. congruence.
Qed.

(** Above the subnormal range [fl] has a relative error of at most 2^-53. *)
Lemma fl_error (x : Q) :
  2 ^ (-1022) <= Qabs x → Qabs (fl x - x) <= Qabs x * 2 ^ (-53).
Proof.
  intros Hx.
  assert (Hnz : ¬ x == 0).
  { intros H0. rewrite H0 in Hx. vm_compute in Hx. by apply Hx. }
  unfold fl. destruct (Qeq_bool x 0) eqn:E; [apply Qeq_bool_iff in E; done|].
  destruct (ilog2_spec x Hnz) as [Hlo Hhi].
  assert (He : (-1022 <= ilog2 x)%Z).
  { assert (2 ^ (-1022) < 2 ^ (ilog2 x + 1)) by lra.
    apply Qpower_lt_compat_l_inv in H; [lia | reflexivity]. }
  rewrite Z.max_l by lia.
  set (u := (ilog2 x - 52)%Z).
  rewrite Qred_correct.
  pose proof (roundTiesToEven_error (x / 2 ^ u)) as Hr.
  pose proof (pow2_pos u) as Pu.
  assert (Heq : inject_Z (roundTiesToEven (x / 2 ^ u)) * 2 ^ u - x
                == (inject_Z (roundTiesToEven (x / 2 ^ u)) - x / 2 ^ u) * 2 ^ u).
  { field. lra. }
  rewrite Heq, Qabs_Qmult, (Qabs_pos (2 ^ u)) by lra.
  assert (Hu : 2 ^ u == 2 ^ ilog2 x * (2 * 2 ^ (-53))).
  { assert (H52 : 2 * 2 ^ (-53) == 2 ^ (-52)) by reflexivity.
    rewrite H52, <- Qpower_plus by discriminate. reflexivity. }
  pose proof (pow2_pos (-53)) as P53.
  pose proof (pow2_pos (ilog2 x)) as Pe.
  apply Qle_trans with (2 ^ ilog2 x * 2 ^ (-53)).
  - assert (Hpc : 0 <= 2 ^ ilog2 x * (2 * 2 ^ (-53))) by nra.
    pose proof (Qmult_le_compat_r _ _ _ Hr Hpc) as Hm.
    apply Qle_trans with
      (Qabs (inject_Z (roundTiesToEven (x / 2 ^ u)) - x / 2 ^ u)
       * (2 ^ ilog2 x * (2 * 2 ^ (-53)))); [|lra].
    apply Qle_lteq. right. apply Qmult_comp; [reflexivity | exact Hu].
  - apply Qmult_le_compat_r; lra.
Qed.

Lemma fl_error_pos (x : Q) :
  2 ^ (-1022) <= x →
  x * (1 - 2 ^ (-53)) <= fl x ∧ fl x <= x * (1 + 2 ^ (-53)).
Proof.
  intros Hx.
  assert (H0 : 0 < x) by (pose proof (pow2_pos (-1022)); lra).
  pose proof (fl_error x) as H. rewrite (Qabs_pos x) in H by lra.
  specialize (H Hx). apply Qabs_Qle_condition in H. split; lra.
Qed.

Lemma ilog2_unique (x : Q) (e : Z) :
  2 ^ e <= Qabs x → Qabs x < 2 ^ (e + 1) → ilog2 x = e.
Proof.
  intros Hlo Hhi.
  assert (Hnz : ¬ x == 0).
  { intros H0. rewrite H0 in Hlo. pose proof (pow2_pos e).
    change (Qabs 0) with 0 in Hlo. lra. }
  destruct (ilog2_spec x Hnz) as [Hlo' Hhi'].
  assert (H1 : 2 ^ e < 2 ^ (ilog2 x + 1)) by lra.
  assert (H2 : 2 ^ ilog2 x < 2 ^ (e + 1)) by lra.
  apply Qpower_lt_compat_l_inv in H1; [|reflexivity].
  apply Qpower_lt_compat_l_inv in H2; [|reflexivity].
  lia.
Qed.

Lemma ilog2_proper (x y : Q) : x == y → ¬ x == 0 → ilog2 x = ilog2 y.
Proof.
  intros Hxy Hnz. destruct (ilog2_spec x Hnz) as [Hlo Hhi].
  symmetry. apply ilog2_unique; by rewrite <- Hxy.
Qed.

Lemma roundTiesToEven_proper (x y : Q) : x == y → roundTiesToEven x = roundTiesToEven y.
Proof.
  intros Hxy. unfold roundTiesToEven.
  rewrite (Qfloor_comp _ _ Hxy).
  assert (H : x - inject_Z (Qfloor y) == y - inject_Z (Qfloor y)) by (by rewrite Hxy).
  by rewrite (Qcompare_comp _ _ H (1 # 2) (1 # 2) (Qeq_refl _)).
Qed.

(** [fl] reads the value of its argument, not the fraction that denotes it,
    and returns a fraction in lowest terms. *)
Lemma fl_proper (x y : Q) : x == y → fl x = fl y.
Proof.
  intros Hxy. unfold fl.
  destruct (Qeq_bool x 0) eqn:Ex.
  - apply Qeq_bool_iff in Ex. rewrite Hxy in Ex. apply Qeq_bool_iff in Ex. by rewrite Ex.
  - assert (Hnz : ¬ x == 0) by (intros H; apply Qeq_bool_iff in H; congruence).
    destruct (Qeq_bool y 0) eqn:Ey.
    { apply Qeq_bool_iff in Ey. rewrite <- Hxy in Ey. done. }
    rewrite <- (ilog2_proper x y Hxy Hnz).
    apply Qred_complete.
    rewrite (roundTiesToEven_proper (x / 2 ^ Z.max (ilog2 x - 52) (-1074))
                                    (y / 2 ^ Z.max (ilog2 x - 52) (-1074)))
      by (apply Qdiv_comp; [exact Hxy | reflexivity]).
    reflexivity.
Qed.

Lemma roundTiesToEven_int (y : Q) (n : Z) : y == inject_Z n → roundTiesToEven y = n.
Proof.
  intros Hy. rewrite (roundTiesToEven_proper _ _ Hy). unfold roundTiesToEven.
  rewrite Qfloor_Z.
  destruct (Qcompare (inject_Z n - inject_Z n) (1 # 2)) eqn:E; [|done|].
  - apply Qeq_alt in E. lra.
  - apply Qgt_alt in E. lra.
Qed.

Lemma Qred_inject_Z (z : Z) : Qred (inject_Z z) = inject_Z z.
Proof.
  unfold Qred, inject_Z.
  pose proof (Z.ggcd_gcd z 1) as Hg. pose proof (Z.ggcd_correct_divisors z 1) as Hd.
  destruct (Z.ggcd z 1) as [g [aa bb]]. cbn [fst snd] in *.
  rewrite Z.gcd_1_r in Hg. subst g. destruct Hd as [Ha Hb].
  replace aa with z by lia. replace bb with 1%Z by lia. reflexivity.
Qed.

(** Whole numbers below 2^53 are doubles. *)
Lemma fl_int (z : Z) : (Z.abs z < 2 ^ 53)%Z → fl (inject_Z z) = inject_Z z.
Proof.
  intros Hz. unfold fl.
  destruct (Qeq_bool (inject_Z z) 0) eqn:E.
  { apply Qeq_bool_iff in E. unfold Qeq, inject_Z in E. simpl in E.
    assert (z = 0%Z) by lia. by subst. }
  assert (Hnz : ¬ inject_Z z == 0) by (intros H; apply Qeq_bool_iff in H; congruence).
  destruct (ilog2_spec _ Hnz) as [Hlo Hhi].
  assert (Habs : Qabs (inject_Z z) = inject_Z (Z.abs z)) by reflexivity.
  rewrite Habs in Hlo, Hhi.
  assert (H1 : (1 <= Z.abs z)%Z).
  { assert (z ≠ 0%Z); [|lia]. intros ->. by apply Hnz. }
  assert (He0 : (0 <= ilog2 (inject_Z z))%Z).
  { assert (H : 2 ^ 0 < 2 ^ (ilog2 (inject_Z z) + 1)).
    { apply Qle_lt_trans with (inject_Z (Z.abs z)); [|done].
      change (2 ^ 0) with (inject_Z 1). by rewrite <- Zle_Qle. }
    apply (Qpower_lt_compat_l_inv 2 0 (ilog2 (inject_Z z) + 1)) in H; [lia | reflexivity]. }
  assert (He1 : (ilog2 (inject_Z z) < 53)%Z).
  { assert (H : 2 ^ ilog2 (inject_Z z) < 2 ^ 53).
    { apply Qle_lt_trans with (inject_Z (Z.abs z)); [done|].
      rewrite <- (pow2_Z 53) by lia. by rewrite <- Zlt_Qlt. }
    apply (Qpower_lt_compat_l_inv 2 (ilog2 (inject_Z z)) 53) in H; [lia | reflexivity]. }
  rewrite Z.max_l by lia.
  set (u := (ilog2 (inject_Z z) - 52)%Z).
  assert (Hu : (u <= 0)%Z) by (unfold u; lia).
  assert (Hpow : 2 ^ (- u) * 2 ^ u == 1).
  { rewrite <- Qpower_plus by discriminate. by replace (- u + u)%Z with 0%Z by lia. }
  pose proof (pow2_pos u) as Pu.
  assert (Hdiv : inject_Z z / 2 ^ u == inject_Z (z * 2 ^ (- u))).
  { rewrite inject_Z_mult, pow2_Z by lia. unfold Qdiv.
    by rewrite <- Qpower_opp. }
  rewrite (roundTiesToEven_int _ _ Hdiv).
  transitivity (Qred (inject_Z z)); [|apply Qred_inject_Z].
  apply Qred_complete.
  rewrite inject_Z_mult, pow2_Z by lia.
  rewrite <- Qmult_assoc, Hpow. ring.
Qed.

(** Sums and products of whole numbers are exact as long as they stay
    below 2^53. *)
Lemma fl_add_int (a b : Z) :
  (Z.abs (a + b) < 2 ^ 53)%Z → fl_add (inject_Z a) (inject_Z b) = inject_Z (a + b).
Proof.
  intros H. unfold fl_add. rewrite (fl_proper _ (inject_Z (a + b))); [by apply fl_int|].
  by rewrite inject_Z_plus.
Qed.

Lemma fl_mul_int (a b : Z) :
  (Z.abs (a * b) < 2 ^ 53)%Z → fl_mul (inject_Z a) (inject_Z b) = inject_Z (a * b).
Proof.
  intros H. unfold fl_mul. rewrite (fl_proper _ (inject_Z (a * b))); [by apply fl_int|].
  by rewrite inject_Z_mult.
Qed.

(** *** Strings *)

(** [toLowerCase] lowers accented capital letters as well as plain ones,
    and nothing else. *)
Lemma toLowerCase_accents :
  toLowerCase "CAFÉ Ünder ŠKODA Ÿ ×" = "café ünder škoda ÿ ×"
  ∧ toLowerCase "Amul Milk 1L" = "amul milk 1l"
  ∧ toLowerCase "İ" = "i̇"
  ∧ toLowerCase "ßµ दूध" = "ßµ दूध".
Proof. split_and!; vm_compute; reflexivity. Qed.

Lemma findIndex_Some {A} (p : A → bool) (l : list A) (i : nat) (x : A) :
  findIndex p l = Some (i, x) ↔
  l !! i = Some x ∧ p x = true ∧ ∀ j y, l !! j = Some y → (j < i)%nat → p y = false.
Proof.
  unfold findIndex. rewrite list_find_Some. split.
  - intros (Hi & Hp & Hfirst). split_and!; [done..|].
    intros j y Hj Hlt. specialize (Hfirst j y Hj Hlt). by destruct (p y).
  - intros (Hi & Hp & Hfirst). split_and!; [done..|].
    intros j y Hj Hlt. rewrite (Hfirst j y Hj Hlt). done.
Qed.

Lemma findIndex_None {A} (p : A → bool) (l : list A) :
  findIndex p l = None ↔ ∀ x, x ∈ l → p x = false.
Proof.
  unfold findIndex. rewrite list_find_None, Forall_forall. split.
  - intros H x Hx. specialize (H x Hx). by destruct (p x).
  - intros H x Hx. rewrite (H x Hx). done.
Qed.


(** ** Item resolution: the code against the specification's resolver *)

Lemma nameIncludes_spec (q : string) (i : InventoryItem) :
  nameIncludes q i = true ↔ substring_of (toLowerCase q) (toLowerCase (item_name i)).
Proof. apply includes_spec. Qed.

Lemma nameIncludesEitherWay_spec (q : string) (i : InventoryItem) :
  nameIncludesEitherWay q i = true ↔
  substring_of (toLowerCase q) (toLowerCase (item_name i))
  ∨ substring_of (toLowerCase (item_name i)) (toLowerCase q).
Proof.
  unfold nameIncludesEitherWay. rewrite orb_true_iff, !includes_spec. done.
Qed.

Lemma findIndex_cons {A} (p : A → bool) (x : A) (l : list A) :
  findIndex p (x :: l) =
  if p x then Some (0%nat, x) else prod_map S id <$> findIndex p l.
Proof.
  unfold findIndex. simpl. destruct (p x); [by rewrite decide_True | by rewrite decide_False].
Qed.

Lemma findIndex_resolve (q : string) (catalog : list InventoryItem) :
  snd <$> findIndex (nameIncludesEitherWay q) catalog = resolve q catalog.
Proof.
  induction catalog as [|i rest IH]; [done|].
  rewrite findIndex_cons. simpl. unfold nameIncludesEitherWay at 1.
  destruct (_ || _)%bool; [done|].
  rewrite <- IH. by destruct (findIndex _ rest) as [[? ?]|].
Qed.

(** The sale and cart paths only test one direction. *)
Lemma nameIncludes_weaker (q : string) (i : InventoryItem) :
  nameIncludes q i = true → nameIncludesEitherWay q i = true.
Proof. unfold nameIncludes, nameIncludesEitherWay. intros ->. done. Qed.

Lemma find_findIndex {A} (p : A → bool) (l : list A) (x : A) :
  find p l = Some x ↔ ∃ i, findIndex p l = Some (i, x).
Proof.
  unfold find. destruct (findIndex p l) as [[i y]|]; simpl.
  - split; [intros [= ->]; by exists i | intros [j [= _ ->]]; done].
  - split; [done | intros [j Hj]; done].
Qed.

(** The first match of a test, in terms of the test. *)
Lemma first_match {A} (p : A → bool) (P : A → Prop) (l : list A) (x : A) :
  (∀ y, p y = true ↔ P y) →
  (∃ i, findIndex p l = Some (i, x)) ↔
  ∃ i, l !! i = Some x ∧ P x ∧ ∀ j y, l !! j = Some y → (j < i)%nat → ¬ P y.
Proof.
  intros HP. split; intros [i H]; exists i.
  - apply findIndex_Some in H as (Hi & Hp & Hfirst). split_and!; [done | by apply HP |].
    intros j y Hj Hlt Hy. apply HP in Hy. rewrite (Hfirst j y Hj Hlt) in Hy. done.
  - destruct H as (Hi & Hp & Hfirst). apply findIndex_Some. split_and!; [done | by apply HP |].
    intros j y Hj Hlt. destruct (p y) eqn:E; [|done].
    exfalso. apply (Hfirst j y Hj Hlt). by apply HP.
Qed.

(** C5 against the code: the three dispatch paths do not share one
    resolver.  The inventory-update path ([inventoryLine]) resolves a name
    as the specification says: ignoring case, the first catalogue entry
    whose name contains the query or is contained in it.  The sale path
    ([sellLine]) and the cart price path ([processCartItems]) take the
    first entry whose name contains the query, and miss the other
    direction.  "milk" and "noodles" resolve alike on the three paths; the
    query "Amul Milk 1L" resolves to "Amul Milk" for the specification and
    for an UPDATE_INVENTORY, which takes the stock from 5 to 3, whereas a
    RECORD_SALE of it leaves the stock untouched and the cart prices it
    at 0. *)
Theorem resolution_by_path :
  (∀ env k newItem inv,
     match resolve (req_name newItem) inv with
     | Some it =>
         ∃ idx,
           inv !! idx = Some it
           ∧ (∃ q, newInv (inventoryLine env k newItem inv) = <[idx := set_quantity it q]> inv)
           ∧ currentPrice (inventoryLine env k newItem inv) = item_price it
     | None =>
         currentPrice (inventoryLine env k newItem inv) = or_else (req_price newItem) 50
         ∧ (changeTypeIs newItem "subtract" = true →
            newInv (inventoryLine env k newItem inv) = inv)
         ∧ (changeTypeIs newItem "subtract" = false →
            ∃ created, newInv (inventoryLine env k newItem inv) = inv ++ [created]
                       ∧ item_name created = req_name newItem)
     end)
  ∧ (∀ acc soldItem,
       match resolveForSale (sale_name soldItem) (loop_inv acc) with
       | Some it =>
           ∃ idx,
             loop_inv acc !! idx = Some it
             ∧ loop_inv (sellLine acc soldItem)
               = <[idx := set_quantity it
                            (Math_max 0 (item_quantity it - sale_quantity soldItem))]>
                   (loop_inv acc)
       | None =>
           sellLine acc soldItem
           = mkSaleLoop (loop_inv acc) (loop_total acc) (loop_items acc ++ [soldItem])
       end)
  ∧ (∀ inv its i item,
       its !! i = Some item →
       ∃ l, processCartItems inv (payload its) !! i = Some l
            ∧ sale_name l = req_name item
            ∧ sale_quantity l = req_quantity item
            ∧ match resolveForSale (req_name item) inv with
              | Some it => ¬ item_price it == 0 → sale_price l = Some (item_price it)
              | None => sale_price l = Some (or_else (req_price item) 0)
              end)
  ∧ (∀ q catalog it,
       resolve q catalog = Some it ↔
       ∃ i, catalog !! i = Some it
            ∧ (substring_of (toLowerCase q) (toLowerCase (item_name it))
               ∨ substring_of (toLowerCase (item_name it)) (toLowerCase q))
            ∧ ∀ j y, catalog !! j = Some y → (j < i)%nat →
                ¬ (substring_of (toLowerCase q) (toLowerCase (item_name y))
                   ∨ substring_of (toLowerCase (item_name y)) (toLowerCase q)))
  ∧ (∀ q catalog it,
       resolveForSale q catalog = Some it ↔
       ∃ i, catalog !! i = Some it
            ∧ substring_of (toLowerCase q) (toLowerCase (item_name it))
            ∧ ∀ j y, catalog !! j = Some y → (j < i)%nat →
                ¬ substring_of (toLowerCase q) (toLowerCase (item_name y)))
  ∧ (∀ q q' catalog, toLowerCase q = toLowerCase q' →
       resolve q catalog = resolve q' catalog
       ∧ resolveForSale q catalog = resolveForSale q' catalog)
  ∧ (∀ q catalog, is_Some (resolveForSale q catalog) → is_Some (resolve q catalog))
  ∧ (resolve "milk" [amulMilk; maggiNoodles] = Some amulMilk
     ∧ resolveForSale "milk" [amulMilk; maggiNoodles] = Some amulMilk
     ∧ resolve "noodles" [amulMilk; maggiNoodles] = Some maggiNoodles
     ∧ resolveForSale "noodles" [amulMilk; maggiNoodles] = Some maggiNoodles
     ∧ resolve "MILK" (INITIAL_INVENTORY demoEnv) = Some amulMilk
     ∧ resolveForSale "MILK" (INITIAL_INVENTORY demoEnv) = Some amulMilk)
  ∧ (resolve "Amul Milk 1L" (inventory demoState) = Some amulMilk
     ∧ resolveForSale "Amul Milk 1L" (inventory demoState) = None
     ∧ (∃ st, handleAiAction demoEnv "UPDATE_INVENTORY"
                (payload [lineOf "Amul Milk 1L" 2 "subtract"]) demoState = Ok st
              ∧ inventory st = <[5%nat := set_quantity amulMilk 3]> (inventory demoState))
     ∧ (∃ st, handleAiAction demoEnv "RECORD_SALE" (payload [line "Amul Milk 1L" 2]) demoState
              = Ok st ∧ inventory st = inventory demoState)
     ∧ (∃ st, handleAiAction laterEnv "RECORD_SALE" (payload [line "Amul Milk 1L" 2]) demoState
              = Ok st ∧ inventory st = inventory demoState)
     ∧ processCartItems (inventory demoState) (payload [line "Amul Milk 1L" 2])
       = [mkSaleItem "Amul Milk 1L" 2 (Some 0)]).
Proof.
  split_and!.
  8-15, 19: vm_compute; reflexivity.
  8-10: eexists; split; vm_compute; reflexivity.
  - intros env k newItem inv. rewrite <- findIndex_resolve. unfold inventoryLine.
    destruct (findIndex _ inv) as [[idx it]|] eqn:E; cbn [fmap option_fmap option_map snd].
    + exists idx. apply findIndex_Some in E as [Hi _]. split; [done|].
      destruct (changeTypeIs newItem "subtract"); [|destruct (changeTypeIs newItem "set")];
        cbn [newInv currentPrice]; (split; [by eexists | done]).
    + destruct (changeTypeIs newItem "subtract"); cbn [negb newInv currentPrice];
        (split_and!; [done | try done..]).
      intros _. by eexists.
  - intros acc soldItem. unfold resolveForSale, find, sellLine.
    destruct (findIndex _ (loop_inv acc)) as [[idx it]|] eqn:E;
      cbn [fmap option_fmap option_map snd]; [|done].
    exists idx. apply findIndex_Some in E as [Hi _]. done.
  - intros inv its i item Hi. unfold processCartItems, payload. cbn [items].
    change (map ?f its) with (f <$> its).
    rewrite list_lookup_fmap, Hi. cbn [fmap option_fmap option_map].
    eexists. split; [reflexivity|]. cbn [sale_name sale_quantity sale_price].
    split_and!; [done..|]. unfold resolveForSale.
    destruct (find _ inv) as [it|]; cbn [fmap option_fmap option_map]; [|done].
    intros Hnz. unfold or_else at 1. destruct (Qeq_bool (item_price it) 0) eqn:E; [|done].
    apply Qeq_bool_iff in E. done.
  - intros q catalog it. rewrite <- findIndex_resolve.
    rewrite <- (first_match (nameIncludesEitherWay q)
                  (λ y, substring_of (toLowerCase q) (toLowerCase (item_name y))
                        ∨ substring_of (toLowerCase (item_name y)) (toLowerCase q)))
      by apply nameIncludesEitherWay_spec.
    apply (find_findIndex (nameIncludesEitherWay q)).
  - intros q catalog it. unfold resolveForSale.
    rewrite <- (first_match (nameIncludes q)
                  (λ y, substring_of (toLowerCase q) (toLowerCase (item_name y))))
      by apply nameIncludes_spec.
    apply find_findIndex.
  - intros q q' catalog Hq. rewrite <- !findIndex_resolve.
    unfold resolveForSale, nameIncludesEitherWay, nameIncludes. by rewrite Hq.
  - intros q catalog [it Hit]. rewrite <- findIndex_resolve.
    apply find_findIndex in Hit as [i Hi]. apply findIndex_Some in Hi as (Hi & Hp & _).
    apply nameIncludes_weaker in Hp.
    destruct (findIndex (nameIncludesEitherWay q) catalog) as [[j y]|] eqn:E; [by eexists|].
    rewrite findIndex_None in E. rewrite E in Hp; [done|]. by eapply list_elem_of_lookup_2.
Qed.

(** ** The inventory ledger: one line of UPDATE_INVENTORY / RESTOCK *)

Lemma set_inventory_same (st : AppState) : set_inventory st (inventory st) = st.
Proof. by destruct st. Qed.

Lemma update_kind (actionType : string) :
  actionType = "UPDATE_INVENTORY" ∨ actionType = "RESTOCK" →
  (str_eq actionType "UPDATE_INVENTORY" || str_eq actionType "RESTOCK")%bool = true.
Proof. intros [-> | ->]; reflexivity. Qed.

(** The lines of a record are handled one after the other. *)
Lemma inventoryLines_app (env : Env) (pre post : list PayloadItem) :
  ∀ k inv totalOutcome,
    inventoryLines env k (pre ++ post) inv totalOutcome
    = inventoryLines env (k + length pre) post
        (inventoryLines env k pre inv totalOutcome).1
        (inventoryLines env k pre inv totalOutcome).2.
Proof.
  induction pre as [|newItem rest IH]; intros k inv t.
  - cbn [app length inventoryLines fst snd]. by rewrite Nat.add_0_r.
  - cbn [app length inventoryLines]. rewrite IH. by rewrite Nat.add_succ_r.
Qed.

(** The UPDATE_INVENTORY / RESTOCK branch of the dispatcher: the inventory
    the lines leave, and one expense when the updater has run inside the
    call and left a positive [totalOutcome]. *)
Lemma handleAiAction_inventory (env : Env) (actionType : string)
    (its : list PayloadItem) (st : AppState) :
  actionType = "UPDATE_INVENTORY" ∨ actionType = "RESTOCK" →
  handleAiAction env actionType (payload its) st
  = Ok (let r := inventoryLines env 0 its (inventory st) 0 in
        if (eagerState env && gt r.2 0)%bool
        then set_expenses (set_inventory st r.1)
               (expenses st ++ [restockExpense env (length its) r.2])
        else set_inventory st r.1).
Proof.
  intros Hkind. unfold handleAiAction. rewrite (update_kind _ Hkind).
  cbn [payload items].
  destruct (inventoryLines env 0 its (inventory st) 0) as [inv t]. cbn [fst snd].
  destruct (eagerState env); cbn [andb]; [by destruct (gt _ 0) | reflexivity].
Qed.

(** What the dispatch of a record leaves in the state when its last line
    is [newItem]: the inventory that line leaves, and the [totalOutcome]
    it adds to. *)
Lemma handleAiAction_last_line (env : Env) (actionType : string)
    (pre : list PayloadItem) (newItem : PayloadItem) (st : AppState) :
  actionType = "UPDATE_INVENTORY" ∨ actionType = "RESTOCK" →
  let before := inventoryLines env 0 pre (inventory st) 0 in
  let o := inventoryLine env (length pre) newItem before.1 in
  let after := inventoryLines env 0 (pre ++ [newItem]) (inventory st) 0 in
  after.1 = newInv o
  ∧ after.2 = (if gt (quantityAdded o) 0
               then fl_add before.2
                      (fl_mul (quantityAdded o) (fl_mul (currentPrice o) lit_0_8))
               else before.2)
  ∧ ∃ st', handleAiAction env actionType (payload (pre ++ [newItem])) st = Ok st'
           ∧ inventory st' = newInv o
           ∧ sales st' = sales st ∧ cart st' = cart st ∧ activeTab st' = activeTab st
           ∧ (gt after.2 0 = false → expenses st' = expenses st).
Proof.
  intros Hkind before o after.
  assert (Hafter : after = (newInv o,
                            if gt (quantityAdded o) 0
                            then fl_add before.2
                                   (fl_mul (quantityAdded o) (fl_mul (currentPrice o) lit_0_8))
                            else before.2)).
  { subst after. rewrite inventoryLines_app. cbn [inventoryLines Nat.add]. reflexivity. }
  split; [by rewrite Hafter|]. split; [by rewrite Hafter|].
  rewrite (handleAiAction_inventory _ _ _ _ Hkind). fold after. cbv zeta.
  eexists. split; [reflexivity|].
  destruct (eagerState env && gt after.2 0)%bool eqn:E;
    cbn [set_expenses set_inventory inventory sales cart activeTab expenses];
    rewrite Hafter; cbn [fst]; split_and!; try done.
  intros Hgt. rewrite Hafter in E. cbn [snd] in *. rewrite Hgt in E.
  by rewrite andb_false_r in E.
Qed.



(** C10: a line that resolves to an existing item changes nothing but that
    item's quantity: the inventory keeps its length, every other entry is
    untouched, the matched entry keeps its id, name, unit, price, expiry
    date and image (so a price on the payload line is never stored), the
    price used for the cost basis is the stored one, and the inventory a
    one-line action leaves is exactly that. *)
Theorem existing_item_frame (env : Env) (k : nat) (newItem : PayloadItem)
    (inv : list InventoryItem) (idx : nat) (existing : InventoryItem) :
  findIndex (nameIncludesEitherWay (req_name newItem)) inv = Some (idx, existing) →
  let o := inventoryLine env k newItem inv in
  length (newInv o) = length inv
  ∧ (∀ j, j ≠ idx → newInv o !! j = inv !! j)
  ∧ (∃ updated, newInv o !! idx = Some updated
       ∧ item_id updated = item_id existing
       ∧ item_name updated = item_name existing
       ∧ item_unit updated = item_unit existing
       ∧ item_price updated = item_price existing
       ∧ item_expiryDate updated = item_expiryDate existing
       ∧ item_image updated = item_image existing)
  ∧ currentPrice o = item_price existing
  ∧ ∀ actionType st,
      actionType = "UPDATE_INVENTORY" ∨ actionType = "RESTOCK" →
      inventory st = inv →
      ∃ st', handleAiAction env actionType (payload [newItem]) st = Ok st'
             ∧ inventory st' = newInv o
             ∧ sales st' = sales st ∧ cart st' = cart st ∧ activeTab st' = activeTab st.
Proof.
  intros Hfind o.
  assert (Hlt : (idx < length inv)%nat).
  { apply findIndex_Some in Hfind as [Hi _]. by eapply lookup_lt_Some. }
  assert (Hact : ∀ actionType st,
             actionType = "UPDATE_INVENTORY" ∨ actionType = "RESTOCK" →
             inventory st = inv →
             ∃ st', handleAiAction env actionType (payload [newItem]) st = Ok st'
                    ∧ inventory st' = newInv (inventoryLine env k newItem inv)
                    ∧ sales st' = sales st ∧ cart st' = cart st
                    ∧ activeTab st' = activeTab st).
  { intros actionType st Hkind <-. unfold handleAiAction.
    rewrite (update_kind _ Hkind). cbn [payload items inventoryLines].
    assert (newInv (inventoryLine env 0 newItem (inventory st))
            = newInv (inventoryLine env k newItem (inventory st))) as ->.
    { unfold inventoryLine. by rewrite Hfind. }
    destruct (gt _ 0); eexists; (split; [reflexivity | done]). }
  subst o. split_and!; try exact Hact; clear Hact;
  unfold inventoryLine; rewrite Hfind;
  (destruct (changeTypeIs newItem "subtract"); [|destruct (changeTypeIs newItem "set")]);
    cbn [newInv currentPrice]; try done.
  all: try apply length_insert.
  all: try (intros j Hj; by apply list_lookup_insert_ne).
  all: eexists; split; [by apply list_lookup_insert_eq | done].
Qed.

Lemma existing_item_frame_witness :
  findIndex (nameIncludesEitherWay "milk") (INITIAL_INVENTORY demoEnv) = Some (5%nat, amulMilk)
  ∧ currentPrice (inventoryLine demoEnv 0 (mkPayloadItem "milk" 10 None (Some 99))
                    (INITIAL_INVENTORY demoEnv)) = 28.
Proof.
  assert (H : findIndex (nameIncludesEitherWay "milk") (INITIAL_INVENTORY demoEnv)
              = Some (5%nat, amulMilk)) by (vm_compute; reflexivity).
  split; [exact H|].
  exact (proj1 (proj2 (proj2 (proj2
    (existing_item_frame demoEnv 0 (mkPayloadItem "milk" 10 None (Some 99))
       (INITIAL_INVENTORY demoEnv) 5 amulMilk H))))).
Defined.

(** Over a whole action record the entries that were in the inventory
    before keep every field but the quantity. *)
Lemma inventoryLines_frame (env : Env) (its : list PayloadItem) :
  ∀ k inv totalOutcome j it,
    inv !! j = Some it →
    ∃ q, (inventoryLines env k its inv totalOutcome).1 !! j = Some (set_quantity it q).
Proof.
  induction its as [|newItem rest IH]; intros k inv t j it Hj.
  - exists (item_quantity it). simpl. rewrite Hj. by destruct it.
  - cbn [inventoryLines].
    assert (Hstep : ∃ q, newInv (inventoryLine env k newItem inv) !! j
                         = Some (set_quantity it q)).
    { unfold inventoryLine.
      destruct (findIndex _ inv) as [[idx existing]|] eqn:Hfind.
      - pose proof Hfind as Hf. apply findIndex_Some in Hf as [Hi _].
        assert (Hlt : (idx < length inv)%nat) by by eapply lookup_lt_Some.
        destruct (decide (j = idx)) as [->|Hne].
        + assert (it = existing) as -> by congruence.
          destruct (changeTypeIs newItem "subtract"); [|destruct (changeTypeIs newItem "set")];
            cbn [newInv]; eexists; by apply list_lookup_insert_eq.
        + exists (item_quantity it).
          destruct (changeTypeIs newItem "subtract"); [|destruct (changeTypeIs newItem "set")];
            cbn [newInv]; rewrite list_lookup_insert_ne by done; rewrite Hj; by destruct it.
      - exists (item_quantity it).
        destruct (changeTypeIs newItem "subtract"); cbn [newInv negb];
          [|rewrite lookup_app_l by by eapply lookup_lt_Some]; rewrite Hj; by destruct it. }
    destruct Hstep as [q Hq].
    destruct (IH (S k) _ (if gt (quantityAdded (inventoryLine env k newItem inv)) 0
                          then fl_add t
                                 (fl_mul (quantityAdded (inventoryLine env k newItem inv))
                                    (fl_mul (currentPrice (inventoryLine env k newItem inv))
                                       lit_0_8))
                          else t) j _ Hq) as [q' Hq'].
    exists q'. rewrite Hq'. done.
Qed.

(** C4: a dispatched UPDATE_INVENTORY / RESTOCK record whose last line
    resolves to nothing in the inventory the lines before it leave: unless
    the change type is 'subtract', the state's inventory is that inventory
    with a new item at its end, which carries the line's name, the
    requested quantity, the unit 'unit' and the requested price (0 when
    the line carries no price or the price 0), and the whole requested
    quantity counts for costing (at the requested price, or at 50 when the
    line carries none); under 'subtract' the line changes nothing and
    costs nothing, and a record made of that line alone returns the state
    as it was. *)
Theorem unresolved_line (env : Env) (actionType : string)
    (pre : list PayloadItem) (newItem : PayloadItem) (st : AppState) :
  actionType = "UPDATE_INVENTORY" ∨ actionType = "RESTOCK" →
  let before := inventoryLines env 0 pre (inventory st) 0 in
  findIndex (nameIncludesEitherWay (req_name newItem)) before.1 = None →
  let o := inventoryLine env (length pre) newItem before.1 in
  let after := inventoryLines env 0 (pre ++ [newItem]) (inventory st) 0 in
  ∃ st',
    handleAiAction env actionType (payload (pre ++ [newItem])) st = Ok st'
    ∧ (changeTypeIs newItem "subtract" = false →
       ∃ created,
         inventory st' = before.1 ++ [created]
         ∧ item_name created = req_name newItem
         ∧ item_quantity created = req_quantity newItem
         ∧ item_unit created = "unit"
         ∧ (∀ p, req_price newItem = Some p → ¬ p == 0 → item_price created = p)
         ∧ (req_price newItem = None → item_price created = 0)
         ∧ quantityAdded o = req_quantity newItem
         ∧ currentPrice o = or_else (req_price newItem) 50
         ∧ after.2 = (if gt (req_quantity newItem) 0
                      then fl_add before.2
                             (fl_mul (req_quantity newItem)
                                (fl_mul (or_else (req_price newItem) 50) lit_0_8))
                      else before.2))
    ∧ (changeTypeIs newItem "subtract" = true →
       inventory st' = before.1
       ∧ quantityAdded o = 0
       ∧ after.2 = before.2
       ∧ (pre = [] → st' = st)).
Proof.
  intros Hkind before Hfind o after.
  destruct (handleAiAction_last_line env actionType pre newItem st Hkind)
    as (_ & Htotal & st' & Hst & Hinv & Hsales & Hcart & Htab & Hexp).
  fold before o after in Htotal, Hinv, Hexp.
  exists st'. split; [exact Hst|]. rewrite Hinv. clear Hst.
  revert Htotal Hexp Hinv. subst o. unfold inventoryLine. rewrite Hfind.
  destruct (changeTypeIs newItem "subtract") eqn:Hsub;
    cbn [negb newInv quantityAdded currentPrice]; intros Htotal Hexp Hinv;
    (split; [intros ?|intros ?]); try discriminate.
  - assert (Hsame : after.2 = before.2) by (rewrite Htotal; reflexivity).
    split_and!; try done.
    intros Hpre. subst before. rewrite Hpre in *. cbn [inventoryLines fst snd] in *.
    specialize (Hexp ltac:(rewrite Hsame; reflexivity)).
    destruct st, st'; cbn in *; congruence.
  - eexists. split_and!; try reflexivity; try done.
    + intros p Hp Hnz. cbn [item_price]. rewrite Hp. unfold or_else.
      destruct (Qeq_bool p 0) eqn:E; [|done].
      apply Qeq_bool_iff in E. done.
    + intros Hp. cbn [item_price]. by rewrite Hp.
Qed.

Lemma unresolved_line_witness :
  ("RESTOCK" = "UPDATE_INVENTORY" ∨ "RESTOCK" = "RESTOCK")
  ∧ findIndex (nameIncludesEitherWay (req_name (mkPayloadItem "Basmati Rice" 4 None (Some 90))))
      (inventoryLines demoEnv 0 [line "bread" 2] (inventory demoState) 0).1 = None
  ∧ ∃ st' created,
      handleAiAction demoEnv "RESTOCK"
        (payload ([line "bread" 2] ++ [mkPayloadItem "Basmati Rice" 4 None (Some 90)]))
        demoState = Ok st'
      ∧ inventory st' !! 7%nat = Some created
      ∧ item_name created = "Basmati Rice"
      ∧ item_quantity created = 4
      ∧ item_price created = 90.
Proof.
  assert (H : findIndex
                (nameIncludesEitherWay (req_name (mkPayloadItem "Basmati Rice" 4 None (Some 90))))
                (inventoryLines demoEnv 0 [line "bread" 2] (inventory demoState) 0).1 = None)
    by (vm_compute; reflexivity).
  split; [by right|]. split; [exact H|].
  destruct (unresolved_line demoEnv "RESTOCK" [line "bread" 2]
              (mkPayloadItem "Basmati Rice" 4 None (Some 90)) demoState
              (or_intror eq_refl) H) as (st' & Hst & Hnew & _).
  destruct (Hnew eq_refl) as (created & Hinv & Hname & Hqty & _ & Hprice & _).
  exists st', created. split; [exact Hst|].
  split; [rewrite Hinv; reflexivity|].
  split; [exact Hname|]. split; [exact Hqty|].
  apply (Hprice 90); [reflexivity | vm_compute; discriminate].
Defined.

(** ** Cost aggregation and the expense of a restock *)

Lemma Math_round_proper (a b : number) : a == b → Math_round a = Math_round b.
Proof. intros H. unfold Math_round. by rewrite H. Qed.

Lemma gt_proper (a b c : number) : a == b → gt a c = gt b c.
Proof.
  intros H. destruct (gt b c) eqn:E.
  - apply gt_true. apply gt_true in E. lra.
  - apply gt_false. apply gt_false in E. lra.
Qed.

(** [totalOutcome] after the loop is the aggregated cost of the lines, as
    the doubles give it. *)
Lemma inventoryLines_total (env : Env) (its : list PayloadItem) :
  ∀ k inv totalOutcome,
    (inventoryLines env k its inv totalOutcome).2
    = aggregateCostFl (lineOutcomes env k its inv) totalOutcome.
Proof.
  induction its as [|newItem rest IH]; intros k inv t;
    cbn [inventoryLines lineOutcomes aggregateCostFl]; [done|].
  by rewrite IH.
Qed.

(** C6 against the code: one UPDATE_INVENTORY / RESTOCK record leaves the
    inventory its lines give and aggregates, over the lines with a positive
    quantity delta, the cost [quantityDelta * (priceUsed * 0.8)] into
    [totalOutcome] (a sum of doubles).  When React runs the inventory
    updater inside the call, exactly one expense record is appended if
    that sum is positive, whose amount is the sum rounded to a nearest
    whole unit, and none if it is not.  When React leaves the updater for
    the next render, the handler reads [totalOutcome] before it is written
    and appends no expense record at all: restocking 2 Amul Milk, an
    aggregate of 44.8, then leaves the expenses as they were, where the
    same record handled with the updater run inside the call appends an
    expense of 45.  Never more than one expense record is appended. *)
Theorem restock_expense (env : Env) (actionType : string) (its : list PayloadItem)
    (st : AppState) :
  actionType = "UPDATE_INVENTORY" ∨ actionType = "RESTOCK" →
  let totalOutcome := (inventoryLines env 0 its (inventory st) 0).2 in
  ∃ st',
    handleAiAction env actionType (payload its) st = Ok st'
    ∧ inventory st' = (inventoryLines env 0 its (inventory st) 0).1
    ∧ sales st' = sales st ∧ cart st' = cart st ∧ activeTab st' = activeTab st
    ∧ totalOutcome = aggregateCostFl (lineOutcomes env 0 its (inventory st)) 0
    ∧ (eagerState env = true → 0 < totalOutcome →
       expenses st' =
       expenses st ++ [mkExpenseRecord (Date_now env)
                         ("Restock: " +:+ pretty (length its) +:+ " items")
                         (Math_round totalOutcome) (Date_iso env)])
    ∧ (eagerState env = true → ¬ 0 < totalOutcome → expenses st' = expenses st)
    ∧ (eagerState env = false → expenses st' = expenses st)
    ∧ (∃ z : Z, Math_round totalOutcome = inject_Z z
                ∧ totalOutcome - (1 # 2) < inject_Z z ∧ inject_Z z <= totalOutcome + (1 # 2))
    ∧ (∃ st1,
         handleAiAction laterEnv "RESTOCK" (payload [line "Amul Milk" 2]) demoState = Ok st1
         ∧ item_quantity <$> inventory st1 !! 5%nat = Some 7
         ∧ aggregateCost (lineOutcomes laterEnv 0 [line "Amul Milk" 2] (inventory demoState))
           == 224 # 5
         ∧ expenses st1 = expenses demoState)
    ∧ (∃ st2,
         handleAiAction demoEnv "RESTOCK" (payload [line "Amul Milk" 2]) demoState = Ok st2
         ∧ item_quantity <$> inventory st2 !! 5%nat = Some 7
         ∧ expenses st2 = expenses demoState
                          ++ [mkExpenseRecord (Date_now demoEnv) "Restock: 1 items" 45
                                (Date_iso demoEnv)]).
Proof.
  intros Hkind totalOutcome.
  rewrite (handleAiAction_inventory _ _ _ _ Hkind). cbv zeta. fold totalOutcome.
  eexists. split; [reflexivity|].
  split_and!.
  10,11: clear; eexists; split_and!; vm_compute; reflexivity.
  1-4: destruct (eagerState env && gt totalOutcome 0)%bool; reflexivity.
  - apply inventoryLines_total.
  - intros -> Hpos. apply gt_true in Hpos. rewrite Hpos. reflexivity.
  - intros -> Hpos. destruct (gt totalOutcome 0) eqn:E; [|reflexivity].
    apply gt_true in E. done.
  - intros ->. reflexivity.
  - apply Math_round_nearest.
Qed.

Lemma restock_expense_witness :
  ("RESTOCK" = "UPDATE_INVENTORY" ∨ "RESTOCK" = "RESTOCK")
  ∧ ∃ st', handleAiAction demoEnv "RESTOCK"
             (payload [line "milk" 10; mkPayloadItem "Rice" 3 (Some "set") (Some 60)]) demoState
           = Ok st'
           ∧ expenses st' =
             expenses demoState ++
               [mkExpenseRecord (Date_now demoEnv) "Restock: 2 items" 368 (Date_iso demoEnv)].
Proof.
  split; [by right|].
  destruct (restock_expense demoEnv "RESTOCK"
              [line "milk" 10; mkPayloadItem "Rice" 3 (Some "set") (Some 60)] demoState
              (or_intror eq_refl)) as (st' & Hst & _ & _ & _ & _ & _ & Hpos & _).
  exists st'. split; [exact Hst|].
  rewrite Hpos; [vm_compute; reflexivity | reflexivity | vm_compute; reflexivity].
Defined.

(** ** Committing a sale *)

Lemma sameCatalog_refl (inv : list InventoryItem) : sameCatalog inv inv.
Proof. induction inv; constructor; done. Qed.

Lemma sameCatalog_insert (inv0 inv : list InventoryItem) (i : nat)
    (it : InventoryItem) (q : number) :
  sameCatalog inv inv0 → inv !! i = Some it →
  sameCatalog (<[i := set_quantity it q]> inv) inv0.
Proof.
  intros H. revert i. induction H as [|x y l l' [Hn Hp] Hrest IH]; intros i Hi; [done|].
  destruct i as [|i]; simpl in *.
  - injection Hi as ->. constructor; done.
  - constructor; [done | by apply IH].
Qed.

(** Name resolution only reads names: on two inventories with the same
    names and prices it finds the same position and the same price. *)
Lemma sameCatalog_findIndex (q : string) (a b : list InventoryItem) :
  sameCatalog a b →
  match findIndex (nameIncludes q) a, findIndex (nameIncludes q) b with
  | Some (i, x), Some (j, y) => i = j ∧ item_price x = item_price y
  | None, None => True
  | _, _ => False
  end.
Proof.
  induction 1 as [|x y l l' [Hn Hp] Hrest IH]; [done|].
  rewrite !findIndex_cons.
  assert (nameIncludes q x = nameIncludes q y) as ->
    by (unfold nameIncludes; by rewrite Hn).
  destruct (nameIncludes q y); [done|].
  destruct (findIndex _ l) as [[i x']|], (findIndex _ l') as [[j y']|]; simpl; try done.
  destruct IH as [-> ?]. done.
Qed.

Lemma sumLinePrices_acc (l : list SaleItem) (a : number) :
  fold_left (λ a b, a + or_else (sale_price b) 0 * sale_quantity b) l a
  == a + sumLinePrices l.
Proof.
  unfold sumLinePrices. revert a. induction l as [|x l IH]; intros a; simpl.
  - lra.
  - rewrite IH. rewrite (IH (0 + _)). lra.
Qed.

Lemma sumLinePrices_app (l1 l2 : list SaleItem) :
  sumLinePrices (l1 ++ l2) == sumLinePrices l1 + sumLinePrices l2.
Proof.
  unfold sumLinePrices at 1. rewrite fold_left_app.
  rewrite sumLinePrices_acc. reflexivity.
Qed.


Lemma or_else_some (v : number) : or_else (Some v) 0 == v.
Proof.
  simpl. destruct (Qeq_bool v 0) eqn:E; [|reflexivity].
  apply Qeq_bool_iff in E. by rewrite E.
Qed.

Lemma or_else_price_of (l : SaleItem) :
  falsy (sale_price l) = false → or_else (sale_price l) 0 = price_of l.
Proof.
  unfold price_of. destruct (sale_price l) as [v|]; simpl; [|done].
  by intros ->.
Qed.

(** The lines as recorded always add up to the charged total. *)
Lemma sumLinePrices_priced (inv : list InventoryItem) (lines : list SaleItem) :
  sumLinePrices (map (pricedLine inv) lines) == chargedTotal inv lines.
Proof.
  induction lines as [|l rest IH]; [reflexivity|].
  change (map (pricedLine inv) (l :: rest))
    with ([pricedLine inv l] ++ map (pricedLine inv) rest).
  rewrite sumLinePrices_app, IH. cbn [chargedTotal fold_right].
  fold (chargedTotal inv rest).
  assert (H : sumLinePrices [pricedLine inv l] == chargedPrice inv l * sale_quantity l).
  { unfold sumLinePrices, pricedLine, chargedPrice. cbn [fold_left].
    destruct (resolveForSale (sale_name l) inv) as [it|].
    - destruct (falsy (sale_price l)) eqn:E.
      + cbn [set_sale_price sale_price sale_quantity]. rewrite or_else_some. lra.
      + rewrite (or_else_price_of _ E). lra.
    - lra. }
  rewrite H. reflexivity.
Qed.

Lemma sellLine_shape (inv0 : list InventoryItem) (acc : SaleLoop) (l : SaleItem) :
  sameCatalog (loop_inv acc) inv0 →
  sameCatalog (loop_inv (sellLine acc l)) inv0
  ∧ loop_items (sellLine acc l) = loop_items acc ++ [pricedLine inv0 l]
  ∧ loop_total (sellLine acc l) == loop_total acc + resolvedTotal inv0 [l].
Proof.
  intros Hsame.
  pose proof (sameCatalog_findIndex (sale_name l) _ _ Hsame) as Hfi.
  unfold sellLine, pricedLine, resolvedTotal, resolveForSale, find, pricedLine,
    resolveForSale, find.
  cbn [fold_right].
  destruct (findIndex (nameIncludes (sale_name l)) (loop_inv acc)) as [[idx it]|] eqn:E1,
           (findIndex (nameIncludes (sale_name l)) inv0) as [[j y]|] eqn:E2;
    try done; cbn [fmap option_fmap option_map snd loop_inv loop_items loop_total].
  - destruct Hfi as [-> Hprice]. rewrite Hprice.
    apply findIndex_Some in E1 as [Hi _].
    split_and!.
    + by apply sameCatalog_insert.
    + reflexivity.
    + destruct (falsy (sale_price l)); cbn [set_sale_price sale_quantity]; lra.
  - split_and!; [done | reflexivity | lra].
Qed.

Lemma sellLoop_shape (inv0 : list InventoryItem) (lines : list SaleItem) :
  ∀ acc, sameCatalog (loop_inv acc) inv0 →
    sameCatalog (loop_inv (fold_left sellLine lines acc)) inv0
    ∧ loop_items (fold_left sellLine lines acc)
      = loop_items acc ++ map (pricedLine inv0) lines
    ∧ loop_total (fold_left sellLine lines acc)
      == loop_total acc + resolvedTotal inv0 lines.
Proof.
  induction lines as [|l rest IH]; intros acc Hsame.
  - simpl. split_and!; [done | by rewrite app_nil_r | lra].
  - cbn [fold_left].
    destruct (sellLine_shape inv0 acc l Hsame) as (H1 & H2 & H3).
    destruct (IH _ H1) as (G1 & G2 & G3).
    split_and!; [done | |].
    + rewrite G2, H2, <- app_assoc. reflexivity.
    + rewrite G3, H3. unfold resolvedTotal. cbn [fold_right]. lra.
Qed.

Lemma resolvedTotal_all (inv : list InventoryItem) (lines : list SaleItem) :
  Forall (λ l, is_Some (resolveForSale (sale_name l) inv)) lines →
  resolvedTotal inv lines == chargedTotal inv lines.
Proof.
  induction 1 as [|l rest [it Hit] _ IH]; [reflexivity|].
  unfold resolvedTotal, chargedTotal in *. cbn [fold_right]. rewrite IH.
  unfold chargedPrice, pricedLine. rewrite Hit.
  destruct (falsy (sale_price l)); unfold price_of; cbn [set_sale_price sale_price]; lra.
Qed.

Lemma resolvedTotal_none (inv : list InventoryItem) (lines : list SaleItem) :
  Forall (λ l, resolveForSale (sale_name l) inv = None) lines →
  resolvedTotal inv lines == 0.
Proof.
  induction 1 as [|l rest Hl _ IH]; [reflexivity|].
  unfold resolvedTotal in *. cbn [fold_right]. rewrite IH, Hl. lra.
Qed.

(** A line with a non-zero price of its own is charged that price, resolved
    or not. *)
Lemma sumLinePrices_own (inv : list InventoryItem) (lines : list SaleItem) :
  Forall (λ l, is_Some (resolveForSale (sale_name l) inv) → falsy (sale_price l) = false)
         lines →
  sumLinePrices lines == chargedTotal inv lines.
Proof.
  induction 1 as [|l rest Hl _ IH]; [reflexivity|].
  change (l :: rest) with ([l] ++ rest) at 1.
  rewrite sumLinePrices_app, IH. cbn [chargedTotal fold_right].
  fold (chargedTotal inv rest).
  assert (H : sumLinePrices [l] == chargedPrice inv l * sale_quantity l).
  { unfold sumLinePrices, chargedPrice. cbn [fold_left].
    destruct (resolveForSale (sale_name l) inv) as [it|].
    - rewrite (Hl ltac:(by eexists)), (or_else_price_of _ (Hl ltac:(by eexists))). lra.
    - lra. }
  rewrite H. reflexivity.
Qed.

(** The sale record [updateInventoryAndRecordSale] appends. *)
Lemma sale_record_shape (env : Env) (lines : list SaleItem) (st : AppState) :
  ∃ total,
    sales (updateInventoryAndRecordSale env lines st)
    = sales st ++ [mkSaleRecord (Date_now env) (map (pricedLine (inventory st)) lines)
                     total (Date_iso env)]
    ∧ (eagerState env = true →
       Qeq_bool (resolvedTotal (inventory st) lines) 0 = false →
       total == resolvedTotal (inventory st) lines)
    ∧ (eagerState env = true →
       Qeq_bool (resolvedTotal (inventory st) lines) 0 = true →
       total == chargedTotal (inventory st) lines)
    ∧ (eagerState env = false → total = sumLinePrices lines).
Proof.
  destruct (sellLoop_shape (inventory st) lines (mkSaleLoop (inventory st) 0 [])
              (sameCatalog_refl _)) as (_ & Hitems & Htotal).
  cbn [loop_items loop_total app] in Hitems, Htotal.
  eexists. split.
  - unfold updateInventoryAndRecordSale. cbn [set_sales sales]. rewrite Hitems.
    reflexivity.
  - assert (Ht : loop_total (fold_left sellLine lines (mkSaleLoop (inventory st) 0 []))
                 == resolvedTotal (inventory st) lines) by lra.
    destruct (eagerState env); (split_and!; try discriminate); intros _.
    + unfold num_or. destruct (Qeq_bool (loop_total _) 0) eqn:E.
      * intros Hne. apply Qeq_bool_iff in E. rewrite Ht in E.
        apply Qeq_bool_iff in E. congruence.
      * intros _. exact Ht.
    + unfold num_or. destruct (Qeq_bool (loop_total _) 0) eqn:E.
      * intros _. apply sumLinePrices_priced.
      * intros He. apply Qeq_bool_iff in He. rewrite <- Ht in He.
        apply Qeq_bool_iff in He. congruence.
    + reflexivity.
Qed.





(** ** The cart *)

Lemma str_eq_true (a b : string) : str_eq a b = true ↔ a = b.
Proof. apply String.eqb_eq. Qed.

Lemma str_eq_false (a b : string) : str_eq a b = false ↔ a ≠ b.
Proof. apply String.eqb_neq. Qed.



(** What [mergeLine] does, by cases on the name being in the cart. *)
Lemma mergeLine_cases (c : list SaleItem) (item : SaleItem) :
  (∃ i existing,
      c !! i = Some existing
      ∧ sale_name existing = sale_name item
      ∧ (∀ j y, c !! j = Some y → (j < i)%nat → sale_name y ≠ sale_name item)
      ∧ mergeLine c item
        = <[i := set_sale_quantity existing (sale_quantity existing + sale_quantity item)]> c)
  ∨ ((∀ l, l ∈ c → sale_name l ≠ sale_name item)
     ∧ mergeLine c item = c ++ [item]).
Proof.
  unfold mergeLine.
  destruct (findIndex _ c) as [[i existing]|] eqn:E.
  - left. apply findIndex_Some in E as (Hi & Hn & Hfirst).
    exists i, existing. split_and!; try done.
    + by apply str_eq_true.
    + intros j y Hj Hlt. apply str_eq_false. by eapply Hfirst.
  - right. split; [|done]. intros l Hl. apply str_eq_false.
    revert l Hl. by apply findIndex_None.
Qed.




Lemma find_name_None (n : string) (c : list SaleItem) :
  find (λ i, str_eq (sale_name i) n) c = None → ∀ l, l ∈ c → sale_name l ≠ n.
Proof.
  unfold find. destruct (findIndex _ c) as [[i y]|] eqn:E; [done|].
  intros _ l Hl. apply str_eq_false. revert l Hl. by apply findIndex_None.
Qed.



(** *** The cart invariant *)

Lemma names_map_same (g : SaleItem → SaleItem) (c : list SaleItem) :
  (∀ l, sale_name (g l) = sale_name l) →
  sale_name <$> map g c = sale_name <$> c.
Proof.
  intros Hg. induction c as [|l c IH]; [done|].
  change (sale_name (g l) :: (sale_name <$> map g c) = sale_name l :: (sale_name <$> c)).
  by rewrite Hg, IH.
Qed.

Lemma names_insert_same (c : list SaleItem) (i : nat) (x y : SaleItem) :
  c !! i = Some x → sale_name y = sale_name x →
  sale_name <$> <[i := y]> c = sale_name <$> c.
Proof.
  intros Hi Hn. rewrite list_fmap_insert. apply list_insert_id.
  by rewrite list_lookup_fmap, Hi, Hn.
Qed.

Lemma cartOK_nil : cartOK [].
Proof. split; [constructor | constructor]. Qed.

Lemma cartOK_snoc (c : list SaleItem) (item : SaleItem) :
  cartOK c → (∀ l, l ∈ c → sale_name l ≠ sale_name item) → 0 < sale_quantity item →
  cartOK (c ++ [item]).
Proof.
  intros [Hnd Hpos] Hfresh Hq. split.
  - rewrite fmap_app. apply NoDup_app. split_and!; [done | | apply NoDup_singleton].
    intros n Hn Hin. apply list_elem_of_fmap in Hn as (l & -> & Hl).
    apply list_elem_of_singleton in Hin. by apply (Hfresh l Hl).
  - apply Forall_app. split; [done|]. by repeat constructor.
Qed.

Lemma cartOK_map (g : SaleItem → SaleItem) (c : list SaleItem) :
  (∀ l, sale_name (g l) = sale_name l) →
  (∀ l, 0 < sale_quantity l → 0 < sale_quantity (g l)) →
  cartOK c → cartOK (map g c).
Proof.
  intros Hn Hq [Hnd Hpos]. split.
  - by rewrite names_map_same.
  - change (map g c) with (g <$> c). apply Forall_fmap.
    eapply Forall_impl; [exact Hpos|]. intros l Hl. by apply Hq.
Qed.

Lemma cartOK_mergeLine (c : list SaleItem) (item : SaleItem) :
  cartOK c → 0 < sale_quantity item → cartOK (mergeLine c item).
Proof.
  intros Hok Hq.
  destruct (mergeLine_cases c item) as [(i & existing & Hi & Hn & _ & ->)|[Hfresh ->]].
  - destruct Hok as [Hnd Hpos]. split.
    + by rewrite (names_insert_same _ _ existing).
    + apply Forall_insert; [done|]. cbn [set_sale_quantity sale_quantity].
      pose proof (Forall_lookup_1 _ _ _ _ Hpos Hi) as He. simpl in He. lra.
  - by apply cartOK_snoc.
Qed.

Lemma cartOK_mergeCart (items c : list SaleItem) :
  cartOK c → Forall (λ l, 0 < sale_quantity l) items → cartOK (mergeCart c items).
Proof.
  unfold mergeCart. revert c. induction items as [|x items IH]; intros c Hok Hpos; [done|].
  apply Forall_cons in Hpos as [Hx Hrest]. simpl.
  apply IH; [by apply cartOK_mergeLine | done].
Qed.

Lemma processCartItems_quantities (inv : list InventoryItem) (data : option Payload) :
  Forall (λ it, 0 < req_quantity it) (payloadLines data) →
  Forall (λ l, 0 < sale_quantity l) (processCartItems inv data).
Proof.
  unfold processCartItems, payloadLines.
  destruct data as [[[its|]]|]; cbn [items]; try (intros _; constructor).
  intros H. induction H; simpl; constructor; done.
Qed.

Lemma cartOK_addToCart (item : InventoryItem) (q : number) (c : list SaleItem) :
  cartOK c → 0 < q → cartOK (addToCart item q c).
Proof.
  intros Hok Hq. unfold addToCart.
  destruct (find _ c) eqn:E.
  - apply cartOK_map; [| |done]; intros l; destruct (str_eq _ _); simpl; try done.
    intros Hl. lra.
  - apply cartOK_snoc; [done | | done].
    intros l Hl. by apply (find_name_None _ _ E).
Qed.

Lemma cartOK_voiceLine (inv : list InventoryItem) (c : list SaleItem) (v : PayloadItem) :
  cartOK c → 0 < req_quantity v → cartOK (voiceLine inv c v).
Proof.
  intros Hok Hq. unfold voiceLine.
  destruct (find (λ p, str_eq (sale_name p) (req_name v)) c) eqn:E.
  - apply cartOK_map; [| |done]; intros l; destruct (str_eq _ _); simpl; try done.
    intros Hl. lra.
  - apply cartOK_snoc; [done | | done].
    intros l Hl. by apply (find_name_None _ _ E).
Qed.

Lemma cartOK_handleVoiceInput (inv : list InventoryItem) (its : list PayloadItem)
    (c : list SaleItem) :
  cartOK c → Forall (λ it, 0 < req_quantity it) its → cartOK (handleVoiceInput inv its c).
Proof.
  unfold handleVoiceInput. revert c. induction its as [|v its IH]; intros c Hok Hpos; [done|].
  apply Forall_cons in Hpos as [Hv Hrest]. simpl.
  apply IH; [by apply cartOK_voiceLine | done].
Qed.

Lemma cartOK_updateQty (name : string) (delta : number) (c : list SaleItem) :
  cartOK c → cartOK (updateQty name delta c).
Proof.
  intros Hok. unfold updateQty. apply cartOK_map; [| |done]; intros l.
  - destruct (str_eq _ _); [|done]. by destruct (Qle_bool _ _).
  - intros Hl. destruct (str_eq _ _); [|done].
    destruct (Qle_bool (sale_quantity l + delta) 0) eqn:E; [done|].
    simpl. apply Qnot_le_lt. intros H. apply Qle_bool_iff in H. congruence.
Qed.

Lemma cartOK_removeItem (name : string) (c : list SaleItem) :
  cartOK c → cartOK (removeItem name c).
Proof.
  intros [Hnd Hpos]. unfold removeItem. split.
  - eapply sublist_NoDup; [exact Hnd|]. apply fmap_sublist, sublist_filter.
  - apply Forall_forall. intros l Hl. apply list_elem_of_filter in Hl as [_ Hl].
    revert l Hl. by apply Forall_forall.
Qed.

Lemma cartOK_minusButton (idx : nat) (c : list SaleItem) :
  cartOK c → cartOK (minusButton idx c).
Proof.
  intros Hok. unfold minusButton. destruct (c !! idx); [|done].
  destruct (gt _ _); [by apply cartOK_updateQty | by apply cartOK_removeItem].
Qed.

Lemma cartOK_plusButton (idx : nat) (c : list SaleItem) :
  cartOK c → cartOK (plusButton idx c).
Proof.
  intros Hok. unfold plusButton. destruct (c !! idx); [|done].
  by apply cartOK_updateQty.
Qed.

(** What a dispatched action record can do to the cart. *)
Lemma handleAiAction_cart (env : Env) (actionType : string) (data : option Payload)
    (st st' : AppState) :
  handleAiAction env actionType data st = Ok st' →
  cart st' = cart st
  ∨ (isCartKind actionType = true
     ∧ cart st' = mergeCart (cart st) (processCartItems (inventory st) data)).
Proof.
  unfold handleAiAction, isCartKind.
  destruct (str_eq actionType "UPDATE_INVENTORY"), (str_eq actionType "RESTOCK");
    cbn [orb];
    try (destruct data as [[[its|]]|]; cbn [items]; try discriminate;
         destruct (inventoryLines env 0 its (inventory st) 0) as [inv t];
         destruct (gt _ 0); intros [= <-]; by left).
  destruct (str_eq actionType "RECORD_SALE").
  { destruct data as [[[its|]]|]; cbn [items]; try discriminate.
    intros [= <-]. by left. }
  destruct (str_eq actionType "ADD_TO_CART"), (str_eq actionType "UPDATE_CART");
    cbn [orb]; try (intros [= <-]; right; by split).
  destruct (str_eq actionType "VIEW_BILL"), (str_eq actionType "NAVIGATE_BILL");
    cbn [orb]; try (intros [= <-]; right; by split).
  destruct (str_eq actionType "COMPLETE_SALE"); intros [= <-]; by left.
Qed.

Lemma cartOK_step (env : Env) (st st' : AppState) (e : Event) :
  cartOK (cart st) → cartSafe e → step env st e = Ok st' → cartOK (cart st').
Proof.
  intros Hok Hsafe. destruct e as [k d| | | | | |its|]; cbn [step cartSafe] in *.
  - intros Hstep. apply handleAiAction_cart in Hstep as [-> | [Hkind ->]]; [done|].
    apply cartOK_mergeCart; [done|]. apply processCartItems_quantities. by apply Hsafe.
  - intros [= <-]. done.
  - intros [= <-]. done.
  - intros [= <-]. cbn [set_cart cart]. apply cartOK_addToCart; [done | reflexivity].
  - intros [= <-]. cbn [set_cart cart]. by apply cartOK_minusButton.
  - intros [= <-]. cbn [set_cart cart]. by apply cartOK_plusButton.
  - intros [= <-]. cbn [set_cart cart]. by apply cartOK_handleVoiceInput.
  - intros [= <-]. unfold handleCheckout. destruct (cart st) eqn:E.
    + rewrite E. apply cartOK_nil.
    + cbn [handleSaleComplete set_cart cart]. apply cartOK_nil.
Qed.

(** C8 as stated does not hold.  An UPDATE_CART action asking for 0
    "Bread" leaves a cart line of quantity 0 in the state; asking for -2
    on a cart holding 2 leaves the line at 0; and [updateQty] with a delta
    that would bring the quantity to 0 keeps the line as it is instead of
    removing it. *)
Lemma cart_keeps_nonpositive_lines :
  (∃ st, run demoState [(demoEnv, AiAction "UPDATE_CART" (payload [line "Bread" 0]))] = Ok st
         ∧ cart st = [mkSaleItem "Bread" 0 (Some 40)])
  ∧ (∃ st, run demoState [(demoEnv, AiAction "UPDATE_CART" (payload [line "Bread" 2]));
                          (demoEnv, AiAction "UPDATE_CART" (payload [line "Bread" (-2)]))]
           = Ok st
           ∧ cart st = [mkSaleItem "Bread" 0 (Some 40)])
  ∧ updateQty "Bread" (-1) [mkSaleItem "Bread" 1 (Some 40)] = [mkSaleItem "Bread" 1 (Some 40)].
Proof.
  split_and!; try (vm_compute; reflexivity); eexists; split; vm_compute; reflexivity.
Qed.

(** C8, amended: along every run whose cart additions carry positive
    quantities, the cart holds at most one line per name and every line has
    a positive quantity.  The minus button of a line removes the line when
    its quantity is at most 1 and otherwise takes one off; [updateQty]
    itself never removes a line: it keeps every line, and leaves unchanged
    a line whose quantity would become 0 or less. *)
Theorem cart_invariant :
  (∀ evs st st',
     cartOK (cart st) → Forall (λ ee, cartSafe ee.2) evs → run st evs = Ok st' →
     cartOK (cart st'))
  ∧ (∀ idx c item,
       c !! idx = Some item → sale_quantity item <= 1 →
       minusButton idx c = removeItem (sale_name item) c
       ∧ ∀ l, l ∈ minusButton idx c → sale_name l ≠ sale_name item)
  ∧ (∀ idx c item,
       c !! idx = Some item → 1 < sale_quantity item →
       minusButton idx c = updateQty (sale_name item) (-1) c
       ∧ minusButton idx c !! idx = Some (set_sale_quantity item (sale_quantity item + -1)))
  ∧ (∀ name delta c,
       length (updateQty name delta c) = length c
       ∧ sale_name <$> updateQty name delta c = sale_name <$> c
       ∧ ∀ i l, c !! i = Some l → sale_quantity l + delta <= 0 →
           updateQty name delta c !! i = Some l).
Proof.
  split_and!.
  - induction evs as [|[env e] evs IH]; intros st st' Hok Hsafe Hrun.
    + injection Hrun as <-. done.
    + apply Forall_cons in Hsafe as [He Hrest]. cbn [run] in Hrun.
      destruct (step env st e) as [st1|] eqn:Hstep; [|discriminate].
      apply (IH st1 st'); [|done..]. by eapply cartOK_step.
  - intros idx c item Hi Hq. unfold minusButton. rewrite Hi.
    apply gt_false in Hq. rewrite Hq. split; [done|].
    intros l Hl. apply list_elem_of_filter in Hl as [Hne _]. by apply str_eq_false.
  - intros idx c item Hi Hq. unfold minusButton. rewrite Hi.
    pose proof Hq as Hgt. apply gt_true in Hgt. rewrite Hgt. split; [done|].
    unfold updateQty. change (map ?f c) with (f <$> c).
    rewrite list_lookup_fmap, Hi. cbn [fmap option_fmap option_map].
    assert (str_eq (sale_name item) (sale_name item) = true) as -> by by apply str_eq_true.
    destruct (Qle_bool (sale_quantity item + -1) 0) eqn:E; [|done].
    apply Qle_bool_iff in E. lra.
  - intros name delta c. split_and!.
    + apply length_map.
    + apply names_map_same. intros l. cbv beta zeta.
      destruct (str_eq _ _); [|done]. by destruct (Qle_bool _ _).
    + intros i l Hi Hq. unfold updateQty. change (map ?f c) with (f <$> c).
      rewrite list_lookup_fmap, Hi. cbn [fmap option_fmap option_map].
      destruct (str_eq _ _); [|done].
      apply Qle_bool_iff in Hq. by rewrite Hq.
Qed.

Lemma cart_invariant_witness :
  cartOK (cart demoState)
  ∧ Forall (λ ee : Env * Event, cartSafe ee.2)
      [(demoEnv, AiAction "UPDATE_CART" (payload [line "Bread" 2; line "milk" 1]));
       (demoEnv, CatalogAdd bread);
       (demoEnv, MinusClick 1)]
  ∧ ∃ st', run demoState
             [(demoEnv, AiAction "UPDATE_CART" (payload [line "Bread" 2; line "milk" 1]));
              (demoEnv, CatalogAdd bread);
              (demoEnv, MinusClick 1)] = Ok st'
           ∧ cart st' = [mkSaleItem "Bread" 3 (Some 40)]
           ∧ cartOK (cart st').
Proof.
  assert (H0 : cartOK (cart demoState)) by apply cartOK_nil.
  assert (Hs : Forall (λ ee : Env * Event, cartSafe ee.2)
      [(demoEnv, AiAction "UPDATE_CART" (payload [line "Bread" 2; line "milk" 1]));
       (demoEnv, CatalogAdd bread);
       (demoEnv, MinusClick 1)]).
  { repeat constructor. }
  split; [exact H0|]. split; [exact Hs|].
  eexists. split; [vm_compute; reflexivity|]. split; [vm_compute; reflexivity|].
  apply (proj1 cart_invariant _ demoState _ H0 Hs). vm_compute; reflexivity.
Defined.

(** ** The inventory invariant *)

Lemma inventoryOK_insert (inv : list InventoryItem) (i : nat) (it : InventoryItem)
    (q : number) :
  inventoryOK inv → 0 <= q → inventoryOK (<[i := set_quantity it q]> inv).
Proof. intros Hok Hq. by apply Forall_insert. Qed.

Lemma inventoryOK_inventoryLine (env : Env) (k : nat) (newItem : PayloadItem)
    (inv : list InventoryItem) :
  inventoryOK inv →
  (changeTypeIs newItem "subtract" = false → 0 <= req_quantity newItem) →
  inventoryOK (newInv (inventoryLine env k newItem inv)).
Proof.
  intros Hok Hq. unfold inventoryLine.
  destruct (findIndex _ inv) as [[idx existing]|] eqn:E.
  - apply findIndex_Some in E as [Hi _].
    pose proof (Forall_lookup_1 _ _ _ _ Hok Hi) as He. cbv beta in He.
    destruct (changeTypeIs newItem "subtract") eqn:Hsub; cbn [newInv].
    + apply inventoryOK_insert; [done | apply Math_max_lower].
    + specialize (Hq eq_refl).
      destruct (changeTypeIs newItem "set"); cbn [newInv];
        apply inventoryOK_insert; try done. lra.
  - destruct (changeTypeIs newItem "subtract") eqn:Hsub; cbn [negb newInv]; [done|].
    apply Forall_app. split; [done|]. repeat constructor. simpl. by apply Hq.
Qed.

Lemma inventoryOK_inventoryLines (env : Env) (its : list PayloadItem) :
  ∀ k inv totalOutcome,
    inventoryOK inv →
    Forall (λ it, changeTypeIs it "subtract" = false → 0 <= req_quantity it) its →
    inventoryOK (inventoryLines env k its inv totalOutcome).1.
Proof.
  induction its as [|newItem rest IH]; intros k inv t Hok Hsafe; [done|].
  apply Forall_cons in Hsafe as [Hq Hrest]. cbn [inventoryLines].
  apply IH; [by apply inventoryOK_inventoryLine | done].
Qed.

Lemma inventoryOK_sellLine (acc : SaleLoop) (soldItem : SaleItem) :
  inventoryOK (loop_inv acc) → inventoryOK (loop_inv (sellLine acc soldItem)).
Proof.
  intros Hok. unfold sellLine.
  destruct (findIndex _ (loop_inv acc)) as [[idx it]|]; cbn [loop_inv]; [|done].
  apply inventoryOK_insert; [done | apply Math_max_lower].
Qed.

(** A sale never leaves a negative quantity, whatever the lines ask for. *)
Lemma inventoryOK_sale (env : Env) (lines : list SaleItem) (st : AppState) :
  inventoryOK (inventory st) →
  inventoryOK (inventory (updateInventoryAndRecordSale env lines st)).
Proof.
  intros Hok. unfold updateInventoryAndRecordSale. cbn [set_sales set_inventory inventory].
  generalize (mkSaleLoop (inventory st) 0 []) (Hok : inventoryOK (loop_inv (mkSaleLoop (inventory st) 0 []))).
  induction lines as [|l rest IH]; intros acc Hacc; [done|].
  simpl. apply IH. by apply inventoryOK_sellLine.
Qed.

Lemma inventoryOK_quickRestock (env : Env) (itemName : string) (st : AppState) :
  inventoryOK (inventory st) → inventoryOK (inventory (handleQuickRestock env itemName st)).
Proof.
  intros Hok. unfold handleQuickRestock. cbn [set_expenses set_inventory inventory].
  change (map ?f (inventory st)) with (f <$> inventory st).
  apply Forall_fmap. eapply Forall_impl; [exact Hok|].
  intros it Hit. unfold compose. cbv beta in *.
  destruct (str_eq _ _); cbn [set_quantity item_quantity]; [lra | done].
Qed.

(** What a dispatched action record can do to the inventory. *)
Lemma inventoryOK_handleAiAction (env : Env) (actionType : string)
    (data : option Payload) (st st' : AppState) :
  inventoryOK (inventory st) →
  inventorySafe (AiAction actionType data) →
  handleAiAction env actionType data st = Ok st' →
  inventoryOK (inventory st').
Proof.
  intros Hok Hsafe. cbn [inventorySafe] in Hsafe.
  unfold handleAiAction, isInventoryKind in *.
  destruct (str_eq actionType "UPDATE_INVENTORY" || str_eq actionType "RESTOCK")%bool.
  { destruct data as [[[its|]]|]; cbn [items]; try discriminate.
    specialize (Hsafe eq_refl). cbn [payloadLines items] in Hsafe.
    pose proof (inventoryOK_inventoryLines env its 0 (inventory st) 0 Hok Hsafe) as H.
    destruct (inventoryLines env 0 its (inventory st) 0) as [inv t].
    destruct (gt _ 0); intros [= <-]; exact H. }
  destruct (str_eq actionType "RECORD_SALE").
  { destruct data as [[[its|]]|]; cbn [items]; try discriminate.
    intros [= <-]. by apply inventoryOK_sale. }
  destruct (str_eq actionType "ADD_TO_CART" || str_eq actionType "UPDATE_CART")%bool;
    [intros [= <-]; done|].
  destruct (str_eq actionType "VIEW_BILL" || str_eq actionType "NAVIGATE_BILL")%bool;
    [intros [= <-]; done|].
  destruct (str_eq actionType "COMPLETE_SALE"); intros [= <-]; [|done].
  by apply inventoryOK_sale.
Qed.

Lemma inventoryOK_step (env : Env) (st st' : AppState) (e : Event) :
  inventoryOK (inventory st) → inventorySafe e → step env st e = Ok st' →
  inventoryOK (inventory st').
Proof.
  intros Hok Hsafe. destruct e as [k d|name|newItem|item|idx|idx|its|]; cbn [step].
  - by apply inventoryOK_handleAiAction.
  - intros [= <-]. by apply inventoryOK_quickRestock.
  - intros [= <-]. constructor; done.
  - intros [= <-]. done.
  - intros [= <-]. done.
  - intros [= <-]. done.
  - intros [= <-]. done.
  - intros [= <-]. unfold handleCheckout. destruct (cart st); [done|].
    cbn [handleSaleComplete set_cart inventory]. by apply inventoryOK_sale.
Qed.

Lemma inventoryOK_initial (env : Env) : inventoryOK (INITIAL_INVENTORY env).
Proof. repeat constructor; simpl; discriminate. Qed.

(** Along a run whose UPDATE_INVENTORY / RESTOCK lines other than
    'subtract' lines, and whose products added by hand, carry a quantity
    of 0 or more, no quantity of the inventory becomes negative. *)
Lemma inventoryOK_run (evs : list (Env * Event)) (st st' : AppState) :
  inventoryOK (inventory st) →
  Forall (λ ee, inventorySafe ee.2) evs →
  run st evs = Ok st' →
  inventoryOK (inventory st').
Proof.
  revert st. induction evs as [|[env e] evs IH]; intros st Hok Hsafe Hrun.
  - injection Hrun as <-. done.
  - apply Forall_cons in Hsafe as [He Hrest]. cbn [run] in Hrun.
    destruct (step env st e) as [st1|] eqn:Hstep; [|discriminate].
    apply (IH st1); [|done..]. by eapply inventoryOK_step.
Qed.

(** C1 against the code: the quantity a line asks for is stored without a
    look at its sign where the line sets it, adds it, or creates an item
    with it.  From the initial catalogue, UPDATE_INVENTORY [{Bread, -5,
    set}] leaves Bread at -5, RESTOCK [{Bread, -8}] leaves it at -3 and
    RESTOCK [{Basmati Rice, -2}] creates an item of quantity -2, whenever
    React runs the updater.  The decrements are floored at 0: a 'subtract'
    line and a sale keep an inventory without negative quantities so,
    whatever quantity they carry; and apart from the three writes above
    nothing brings a quantity below 0. *)
Theorem negative_quantity_reachable :
  (∀ env, env = demoEnv ∨ env = laterEnv →
     (∃ st, run demoState
              [(env, AiAction "UPDATE_INVENTORY" (payload [lineOf "Bread" (-5) "set"]))]
            = Ok st
            ∧ item_quantity <$> inventory st !! 6%nat = Some (-5)
            ∧ ¬ inventoryOK (inventory st))
     ∧ (∃ st, run demoState [(env, AiAction "RESTOCK" (payload [line "Bread" (-8)]))]
              = Ok st
              ∧ item_quantity <$> inventory st !! 6%nat = Some (-3)
              ∧ ¬ inventoryOK (inventory st))
     ∧ (∃ st, run demoState [(env, AiAction "RESTOCK" (payload [line "Basmati Rice" (-2)]))]
              = Ok st
              ∧ item_quantity <$> inventory st !! 7%nat = Some (-2)
              ∧ ¬ inventoryOK (inventory st)))
  ∧ (∀ env actionType st name quantity,
       actionType = "UPDATE_INVENTORY" ∨ actionType = "RESTOCK" →
       inventoryOK (inventory st) →
       ∃ st', handleAiAction env actionType (payload [lineOf name quantity "subtract"]) st
              = Ok st'
              ∧ inventoryOK (inventory st'))
  ∧ (∀ env lines st,
       inventoryOK (inventory st) →
       inventoryOK (inventory (updateInventoryAndRecordSale env lines st)))
  ∧ (∀ evs st st',
       inventoryOK (inventory st) →
       Forall (λ ee, inventorySafe ee.2) evs →
       run st evs = Ok st' →
       inventoryOK (inventory st')).
Proof.
  split_and!.
  - intros env [-> | ->]; split_and!; eexists; (split; [vm_compute; reflexivity|]);
      (split; [vm_compute; reflexivity|]); intros H.
    1,2,4,5: pose proof (Forall_lookup_1 _ _ 6%nat _ H eq_refl) as Hq.
    5,6: pose proof (Forall_lookup_1 _ _ 7%nat _ H eq_refl) as Hq.
    all: vm_compute in Hq; by apply Hq.
  - intros env actionType st name quantity Hkind Hok.
    rewrite (handleAiAction_inventory _ _ _ _ Hkind).
    eexists. split; [reflexivity|].
    assert (H : inventoryOK
                  (inventoryLines env 0 [lineOf name quantity "subtract"] (inventory st) 0).1).
    { apply inventoryOK_inventoryLines; [done|]. repeat constructor. intros [=]. }
    cbv zeta. by destruct (_ && _)%bool.
  - intros env lines st. apply inventoryOK_sale.
  - apply inventoryOK_run.
Qed.

(** ** Payloads without lines *)

(** C7 against the code: a payload that is missing, or that lacks its
    [items] array, makes UPDATE_INVENTORY, RESTOCK and RECORD_SALE throw
    ([data.items.forEach] on nothing); only the cart kinds, which go
    through the guard of [processCartItems], survive it: ADD_TO_CART and
    UPDATE_CART return the state unchanged, VIEW_BILL and NAVIGATE_BILL
    only switch to the calculator, and COMPLETE_SALE records an empty sale
    of total 0.  An unknown kind is a no-op. *)
Theorem malformed_payload_outcomes (env : Env) (st : AppState) :
  handleAiAction env "UPDATE_INVENTORY" None st = Throws
  ∧ handleAiAction env "UPDATE_INVENTORY" (Some (mkPayload None)) st = Throws
  ∧ handleAiAction env "RESTOCK" None st = Throws
  ∧ handleAiAction env "RESTOCK" (Some (mkPayload None)) st = Throws
  ∧ handleAiAction env "RECORD_SALE" None st = Throws
  ∧ handleAiAction env "RECORD_SALE" (Some (mkPayload None)) st = Throws
  ∧ handleAiAction env "ADD_TO_CART" None st = Ok st
  ∧ handleAiAction env "ADD_TO_CART" (Some (mkPayload None)) st = Ok st
  ∧ handleAiAction env "UPDATE_CART" None st = Ok st
  ∧ handleAiAction env "UPDATE_CART" (Some (mkPayload None)) st = Ok st
  ∧ handleAiAction env "VIEW_BILL" None st = Ok (set_activeTab st calculator)
  ∧ handleAiAction env "VIEW_BILL" (Some (mkPayload None)) st = Ok (set_activeTab st calculator)
  ∧ handleAiAction env "NAVIGATE_BILL" None st = Ok (set_activeTab st calculator)
  ∧ handleAiAction env "NAVIGATE_BILL" (Some (mkPayload None)) st
    = Ok (set_activeTab st calculator)
  ∧ handleAiAction env "COMPLETE_SALE" None st
    = Ok (set_sales st (sales st ++ [mkSaleRecord (Date_now env) [] 0 (Date_iso env)]))
  ∧ handleAiAction env "COMPLETE_SALE" (Some (mkPayload None)) st
    = Ok (set_sales st (sales st ++ [mkSaleRecord (Date_now env) [] 0 (Date_iso env)]))
  ∧ handleAiAction env "NONE" None st = Ok st.
Proof.
  destruct st as [inv sl ex c tab], env as [now iso random ago []].
  all: split_and!; reflexivity.
Qed.

(** * Further properties of the handlers *)

(** ** Lists with one entry per key *)

Lemma map_no_key {A} (key : A → string) (g : A → A) (l : list A) (n : string) :
  (∀ z, z ∈ l → key z ≠ n) →
  map (λ y, if str_eq (key y) n then g y else y) l = l.
Proof.
  induction l as [|y l IH]; intros Hfresh; [done|].
  cbn [map]. rewrite IH by (intros z Hz; apply Hfresh; by right).
  assert (str_eq (key y) n = false) as ->; [|done].
  apply str_eq_false, Hfresh. by left.
Qed.

Lemma map_at_unique {A} (key : A → string) (g : A → A) (l : list A) (i : nat)
    (x : A) (n : string) :
  NoDup (key <$> l) → l !! i = Some x → key x = n →
  map (λ y, if str_eq (key y) n then g y else y) l = <[i := g x]> l.
Proof.
  revert i. induction l as [|y l IH]; intros i Hnd Hi Hn; [done|].
  rewrite fmap_cons in Hnd. apply NoDup_cons in Hnd as [Hy Hnd].
  destruct i as [|i]; cbn [map].
  - injection Hi as ->.
    assert (str_eq (key x) n = true) as -> by by apply str_eq_true.
    rewrite map_no_key; [done|].
    intros z Hz Hzn. apply Hy. rewrite Hn, <- Hzn. by apply list_elem_of_fmap_2.
  - cbn in Hi. rewrite (IH i Hnd Hi Hn).
    assert (str_eq (key y) n = false) as ->; [|done].
    apply str_eq_false. intros Hyn. apply Hy. rewrite Hyn, <- Hn.
    apply list_elem_of_fmap_2. by eapply list_elem_of_lookup_2.
Qed.

Lemma filter_no_key {A} (key : A → string) (l : list A) (n : string) :
  (∀ z, z ∈ l → key z ≠ n) →
  filter (λ y, str_eq (key y) n = true) l = [].
Proof.
  induction l as [|y l IH]; intros Hfresh; [done|].
  rewrite filter_cons_False.
  - apply IH. intros z Hz. apply Hfresh. by right.
  - intros Hy. apply str_eq_true in Hy. apply (Hfresh y); [by left | done].
Qed.

Lemma filter_at_unique {A} (key : A → string) (l : list A) (i : nat) (x : A)
    (n : string) :
  NoDup (key <$> l) → l !! i = Some x → key x = n →
  filter (λ y, str_eq (key y) n = true) l = [x].
Proof.
  revert i. induction l as [|y l IH]; intros i Hnd Hi Hn; [done|].
  rewrite fmap_cons in Hnd. apply NoDup_cons in Hnd as [Hy Hnd].
  destruct i as [|i].
  - injection Hi as ->. rewrite filter_cons_True by by apply str_eq_true.
    rewrite filter_no_key; [done|].
    intros z Hz Hzn. apply Hy. rewrite Hn, <- Hzn. by apply list_elem_of_fmap_2.
  - cbn in Hi. rewrite filter_cons_False; [by eapply IH|].
    intros Hyn. apply str_eq_true in Hyn. apply Hy. rewrite Hyn, <- Hn.
    apply list_elem_of_fmap_2. by eapply list_elem_of_lookup_2.
Qed.

(** ** Quick restock *)

Lemma lit_0_8_value : lit_0_8 = 3602879701896397 # 4503599627370496.
Proof. vm_compute. reflexivity. Qed.

(** [(price * 0.8) * 10] in doubles is 8 times the price up to a relative
    error of 2^-51. *)
Lemma quickRestock_amount (env : Env) (it : InventoryItem) :
  1 # 100 <= item_price it →
  Qabs (exp_amount (quickRestockExpense env it) - 8 * item_price it)
  <= 8 * item_price it * (1 # 2251799813685248).
Proof.
  intros Hp. cbn [quickRestockExpense exp_amount]. unfold fl_mul.
  rewrite lit_0_8_value.
  set (p := item_price it) in *.
  set (c := 3602879701896397 # 4503599627370496).
  assert (H1 : 2 ^ (-1022) <= p * c).
  { apply Qle_trans with ((1 # 100) * c).
    - apply Qle_bool_iff. vm_compute. reflexivity.
    - apply Qmult_le_compat_r; [exact Hp | discriminate]. }
  destruct (fl_error_pos _ H1) as [Hlo1 Hhi1].
  change (2 ^ (-53)) with (1 # 9007199254740992) in Hlo1, Hhi1.
  set (y1 := fl (p * c)) in *.
  assert (H2 : 2 ^ (-1022) <= y1 * 10).
  { apply Qle_trans with ((1 # 100) * c); [apply Qle_bool_iff; vm_compute; reflexivity|].
    unfold c in *. lra. }
  destruct (fl_error_pos _ H2) as [Hlo2 Hhi2].
  change (2 ^ (-53)) with (1 # 9007199254740992) in Hlo2, Hhi2.
  set (y2 := fl (y1 * 10)) in *.
  apply Qabs_Qle_condition. unfold c in *. split; lra.
Qed.



(** After a quick restock of a product, no product of that name is left
    on the restock list of the dashboard, provided quantities were not
    negative; the products of other names are on the list after the
    restock exactly when they were before. *)
Theorem quick_restock_clears_alert (env : Env) (itemName : string) (st : AppState) :
  inventoryOK (inventory st) →
  (∀ it, it ∈ restockNeeded (inventory (handleQuickRestock env itemName st)) →
         item_name it ≠ itemName)
  ∧ (∀ it, item_name it ≠ itemName →
       (it ∈ restockNeeded (inventory (handleQuickRestock env itemName st))
        ↔ it ∈ restockNeeded (inventory st))).
Proof.
  intros Hok. unfold handleQuickRestock, restockNeeded.
  cbn [set_expenses set_inventory inventory].
  change (map ?f (inventory st)) with (f <$> inventory st).
  split.
  - intros it Hit. apply list_elem_of_filter in Hit as [Hlow Hin].
    apply list_elem_of_fmap in Hin as (x & -> & Hx).
    destruct (str_eq (item_name x) itemName) eqn:E; [|by apply str_eq_false].
    exfalso. cbn [set_quantity item_quantity] in Hlow.
    apply gt_true in Hlow.
    pose proof (proj1 (Forall_forall _ _) Hok x Hx) as Hq. cbv beta in Hq. lra.
  - intros it Hne. rewrite !list_elem_of_filter, list_elem_of_fmap. split.
    + intros (Hlow & x & -> & Hx).
      destruct (str_eq (item_name x) itemName) eqn:E; [|done].
      apply str_eq_true in E. by destruct Hne.
    + intros (Hlow & Hin). split; [done|]. exists it. split; [|done].
      apply str_eq_false in Hne. by rewrite Hne.
Qed.

Lemma quick_restock_clears_alert_witness :
  inventoryOK (inventory demoState)
  ∧ item_name <$> restockNeeded (inventory demoState)
    = ["Maggi Noodles"; "Red Label Tea"; "Amul Milk"; "Bread"]
  ∧ item_name <$> restockNeeded (inventory (handleQuickRestock demoEnv "Amul Milk" demoState))
    = ["Maggi Noodles"; "Red Label Tea"; "Bread"]
  ∧ ∀ it, it ∈ restockNeeded (inventory (handleQuickRestock demoEnv "Amul Milk" demoState)) →
          item_name it ≠ "Amul Milk".
Proof.
  assert (H0 : inventoryOK (inventory demoState)) by apply inventoryOK_initial.
  split; [exact H0|]. split; [vm_compute; reflexivity|]. split; [vm_compute; reflexivity|].
  exact (proj1 (quick_restock_clears_alert demoEnv "Amul Milk" demoState H0)).
Defined.

(** ** What a sale does to the inventory *)

Lemma sameButQuantity_refl (a : InventoryItem) : sameButQuantity a a.
Proof. by destruct a. Qed.

Lemma sameButQuantity_set (a : InventoryItem) (q : number) :
  sameButQuantity a (set_quantity a q).
Proof. done. Qed.

Lemma sameButQuantity_trans (a b c : InventoryItem) :
  sameButQuantity a b → sameButQuantity b c → sameButQuantity a c.
Proof. unfold sameButQuantity. intros -> ->. done. Qed.

Lemma Forall2_refl_on {A} (R : A → A → Prop) (l : list A) :
  (∀ x, R x x) → Forall2 R l l.
Proof. intros HR. induction l; constructor; done. Qed.

Lemma Forall2_insert_r {A} (R : A → A → Prop) (l : list A) (i : nat) (x y : A) :
  (∀ z, R z z) → l !! i = Some x → R x y → Forall2 R l (<[i := y]> l).
Proof.
  intros HR. revert i. induction l as [|z l IH]; intros i Hi Hxy; [done|].
  destruct i as [|i]; cbn in *.
  - injection Hi as ->. constructor; [done | by apply Forall2_refl_on].
  - constructor; [done | by apply IH].
Qed.

(** The stock relation a sale establishes item by item: the same product,
    and, if it was not negative and the quantity sold is not, a quantity
    between 0 and what it was. *)
Lemma sellLine_inventory (acc : SaleLoop) (soldItem : SaleItem) :
  Forall2 (λ a b, sameButQuantity a b
                  ∧ (0 <= item_quantity a → 0 <= sale_quantity soldItem →
                     0 <= item_quantity b ∧ item_quantity b <= item_quantity a))
          (loop_inv acc) (loop_inv (sellLine acc soldItem)).
Proof.
  unfold sellLine.
  destruct (findIndex _ (loop_inv acc)) as [[idx it]|] eqn:E; cbn [loop_inv].
  - apply findIndex_Some in E as [Hi _].
    eapply Forall2_insert_r; [|exact Hi|].
    + intros z. split; [apply sameButQuantity_refl | intros; split; [done | lra]].
    + split; [apply sameButQuantity_set|]. cbn [set_quantity item_quantity].
      intros Hq Hs. split; [apply Math_max_lower|].
      destruct (Math_max_spec (item_quantity it - sale_quantity soldItem))
        as [[_ ->]|[_ ->]]; lra.
  - apply Forall2_refl_on. intros z.
    split; [apply sameButQuantity_refl | intros; split; [done | lra]].
Qed.

Lemma sellLoop_inventory (lines : list SaleItem) :
  ∀ acc,
    Forall2 (λ a b, sameButQuantity a b
                    ∧ (0 <= item_quantity a →
                       Forall (λ l, 0 <= sale_quantity l) lines →
                       0 <= item_quantity b ∧ item_quantity b <= item_quantity a))
            (loop_inv acc) (loop_inv (fold_left sellLine lines acc)).
Proof.
  induction lines as [|l rest IH]; intros acc.
  - apply Forall2_refl_on. intros z.
    split; [apply sameButQuantity_refl | intros; split; [done | lra]].
  - cbn [fold_left].
    eapply Forall2_trans; [|apply sellLine_inventory|apply IH].
    intros a b c [Hab Hqab] [Hbc Hqbc]. split; [by eapply sameButQuantity_trans|].
    intros Ha Hall. apply Forall_cons in Hall as [Hl Hrest].
    destruct (Hqab Ha Hl) as [Hb Hba]. destruct (Hqbc Hb Hrest) as [Hc Hcb].
    split; [done | lra].
Qed.

Lemma sellLoop_unresolved (lines : list SaleItem) (inv : list InventoryItem) :
  Forall (λ l, resolveForSale (sale_name l) inv = None) lines →
  ∀ acc, loop_inv acc = inv → loop_inv (fold_left sellLine lines acc) = inv.
Proof.
  induction 1 as [|l rest Hl _ IH]; intros acc Hacc; [done|].
  cbn [fold_left]. apply IH. unfold sellLine. rewrite Hacc.
  unfold resolveForSale, find in Hl.
  destruct (findIndex _ inv) as [[i x]|]; [discriminate | done].
Qed.

Lemma sale_inventory_effect_aux (env : Env) (lines : list SaleItem) (st : AppState) :
  Forall2 sameButQuantity (inventory st)
          (inventory (updateInventoryAndRecordSale env lines st)).
Proof.
  unfold updateInventoryAndRecordSale. cbn [set_sales set_inventory inventory].
  pose proof (sellLoop_inventory lines (mkSaleLoop (inventory st) 0 [])) as H.
  cbn [loop_inv] in H. eapply Forall2_impl; [exact H|]. by intros a b [? _].
Qed.

(** Recording a sale never adds, removes, reorders or renames a product,
    and never changes a price: item by item the inventory after the sale is
    the inventory before with, at most, another quantity.  If no quantity
    was negative and no line sells a negative quantity, every quantity
    ends between 0 and what it was.  If no line's name resolves, the
    inventory is untouched. *)
Theorem sale_inventory_effect (env : Env) (lines : list SaleItem) (st : AppState) :
  Forall2 sameButQuantity (inventory st)
          (inventory (updateInventoryAndRecordSale env lines st))
  ∧ (inventoryOK (inventory st) → Forall (λ l, 0 <= sale_quantity l) lines →
     Forall2 (λ a b, 0 <= item_quantity b ∧ item_quantity b <= item_quantity a)
             (inventory st) (inventory (updateInventoryAndRecordSale env lines st)))
  ∧ (Forall (λ l, resolveForSale (sale_name l) (inventory st) = None) lines →
     inventory (updateInventoryAndRecordSale env lines st) = inventory st).
Proof.
  unfold updateInventoryAndRecordSale. cbn [set_sales set_inventory inventory].
  pose proof (sellLoop_inventory lines (mkSaleLoop (inventory st) 0 [])) as H.
  cbn [loop_inv] in H. split_and!.
  - eapply Forall2_impl; [exact H|]. by intros a b [? _].
  - intros Hok Hlines.
    assert (Hin : Forall2 (λ a b, a ∈ inventory st ∧ sameButQuantity a b
                    ∧ (0 <= item_quantity a →
                       Forall (λ l, 0 <= sale_quantity l) lines →
                       0 <= item_quantity b ∧ item_quantity b <= item_quantity a))
                    (inventory st)
                    (loop_inv (fold_left sellLine lines (mkSaleLoop (inventory st) 0 [])))).
    { apply Forall2_same_length_lookup_2; [by eapply Forall2_length|].
      intros i x y Hx Hy. split; [by eapply list_elem_of_lookup_2|].
      exact (Forall2_lookup_lr _ _ _ _ _ _ H Hx Hy). }
    eapply Forall2_impl; [exact Hin|]. intros a b (Ha & _ & Hq). apply Hq; [|done].
    by apply (proj1 (Forall_forall _ _) Hok a Ha).
  - intros Hnone. by apply sellLoop_unresolved.
Qed.

Lemma sale_inventory_effect_witness :
  inventoryOK (inventory demoState)
  ∧ Forall (λ l, 0 <= sale_quantity l)
      [mkSaleItem "noodles" 3 None; mkSaleItem "Bread" 9 (Some 40)]
  ∧ item_quantity <$>
      inventory (updateInventoryAndRecordSale demoEnv
                   [mkSaleItem "noodles" 3 None; mkSaleItem "Bread" 9 (Some 40)] demoState)
    = [45; 5; 20; 4; 30; 5; 0]
  ∧ Forall2 (λ a b, 0 <= item_quantity b ∧ item_quantity b <= item_quantity a)
      (inventory demoState)
      (inventory (updateInventoryAndRecordSale demoEnv
                    [mkSaleItem "noodles" 3 None; mkSaleItem "Bread" 9 (Some 40)] demoState)).
Proof.
  assert (H0 : inventoryOK (inventory demoState)) by apply inventoryOK_initial.
  assert (Hl : Forall (λ l, 0 <= sale_quantity l)
                 [mkSaleItem "noodles" 3 None; mkSaleItem "Bread" 9 (Some 40)]).
  { repeat constructor; vm_compute; discriminate. }
  split; [exact H0|]. split; [exact Hl|]. split; [vm_compute; reflexivity|].
  exact (proj1 (proj2 (sale_inventory_effect demoEnv _ demoState)) H0 Hl).
Defined.

(** ** Products are never deleted or rewritten *)

Lemma persists_refl (a : list InventoryItem) : persists a a.
Proof.
  exists [], a, []. split; [by rewrite app_nil_r|].
  apply Forall2_refl_on, sameButQuantity_refl.
Qed.

Lemma persists_same (a b : list InventoryItem) :
  Forall2 sameButQuantity a b → persists a b.
Proof. intros H. exists [], b, []. split; [by rewrite app_nil_r | done]. Qed.

Lemma persists_trans (a b c : list InventoryItem) :
  persists a b → persists b c → persists a c.
Proof.
  intros (f1 & m1 & k1 & -> & Ha) (f2 & m2 & k2 & -> & Hb).
  apply Forall2_app_inv_l in Hb as (f1' & r & Hf & Hr & ->).
  apply Forall2_app_inv_l in Hr as (m1' & k1' & Hm & Hk & ->).
  exists (f2 ++ f1'), m1', (k1' ++ k2). split.
  - by rewrite <- !app_assoc.
  - eapply Forall2_trans; [|exact Ha|exact Hm].
    intros x y z. apply sameButQuantity_trans.
Qed.

Lemma persists_inventoryLines (env : Env) (its : list PayloadItem) (k : nat)
    (inv : list InventoryItem) (totalOutcome : number) :
  persists inv (inventoryLines env k its inv totalOutcome).1.
Proof.
  set (result := (inventoryLines env k its inv totalOutcome).1).
  assert (Hframe : ∀ j it, inv !! j = Some it →
                     ∃ q, result !! j = Some (set_quantity it q))
    by (intros j it; apply inventoryLines_frame).
  assert (Hlen : (length inv ≤ length result)%nat).
  { destruct (decide (length inv = 0%nat)) as [->|Hne]; [lia|].
    destruct (lookup_lt_is_Some_2 inv (length inv - 1)) as [it Hit]; [lia|].
    destruct (Hframe _ _ Hit) as [q Hq]. apply lookup_lt_Some in Hq. lia. }
  exists [], (take (length inv) result), (drop (length inv) result). split.
  - by rewrite app_nil_l, take_drop.
  - apply Forall2_same_length_lookup_2; [by rewrite length_take_le|].
    intros i x y Hx Hy.
    rewrite lookup_take_lt in Hy by by eapply lookup_lt_Some.
    destruct (Hframe _ _ Hx) as [q Hq]. rewrite Hq in Hy. injection Hy as <-. done.
Qed.

Lemma persists_quickRestock (env : Env) (itemName : string) (st : AppState) :
  persists (inventory st) (inventory (handleQuickRestock env itemName st)).
Proof.
  apply persists_same. unfold handleQuickRestock.
  cbn [set_expenses set_inventory inventory].
  change (map ?f (inventory st)) with (f <$> inventory st).
  apply Forall2_fmap_r, Forall2_refl_on. intros x. unfold compose. cbv beta.
  destruct (str_eq _ _); [apply sameButQuantity_set | apply sameButQuantity_refl].
Qed.

Lemma persists_sale (env : Env) (lines : list SaleItem) (st : AppState) :
  persists (inventory st) (inventory (updateInventoryAndRecordSale env lines st)).
Proof. apply persists_same, sale_inventory_effect_aux. Qed.

Lemma persists_handleAiAction (env : Env) (actionType : string) (data : option Payload)
    (st st' : AppState) :
  handleAiAction env actionType data st = Ok st' →
  persists (inventory st) (inventory st').
Proof.
  ai_branches env actionType data st;
    cbn [set_expenses set_inventory set_cart set_activeTab inventory];
    try apply persists_refl; try apply persists_sale.
  all: pose proof (persists_inventoryLines env its 0 (inventory st) 0) as H;
    by rewrite Hlines in H.
Qed.

Lemma persists_step (env : Env) (st st' : AppState) (e : Event) :
  step env st e = Ok st' → persists (inventory st) (inventory st').
Proof.
  destruct e as [k d|name|newItem|item|idx|idx|its|]; cbn [step].
  - apply persists_handleAiAction.
  - intros [= <-]. apply persists_quickRestock.
  - intros [= <-]. exists [newItem], (inventory st), []. split.
    + cbn. by rewrite app_nil_r.
    + apply Forall2_refl_on, sameButQuantity_refl.
  - intros [= <-]. apply persists_refl.
  - intros [= <-]. apply persists_refl.
  - intros [= <-]. apply persists_refl.
  - intros [= <-]. apply persists_refl.
  - intros [= <-]. unfold handleCheckout. destruct (cart st); [apply persists_refl|].
    cbn [handleSaleComplete set_cart inventory]. apply persists_sale.
Qed.

(** Along any run no product is ever deleted, reordered or rewritten: the
    products of the starting inventory are all in the final one, in the
    same order and side by side, with the same id, name, unit, price,
    expiry date and image; only their quantities may differ, and new
    products appear only before them (added by hand) or after them
    (created by an inventory action). *)
Theorem products_persist (evs : list (Env * Event)) (st st' : AppState) :
  run st evs = Ok st' →
  ∃ front mid back,
    inventory st' = front ++ mid ++ back
    ∧ Forall2 (λ a b, item_id b = item_id a ∧ item_name b = item_name a
                      ∧ item_unit b = item_unit a ∧ item_price b = item_price a
                      ∧ item_expiryDate b = item_expiryDate a
                      ∧ item_image b = item_image a)
              (inventory st) mid.
Proof.
  intros Hrun.
  assert (H : persists (inventory st) (inventory st')).
  { revert st Hrun. induction evs as [|[env e] evs IH]; intros st Hrun.
    - injection Hrun as <-. apply persists_refl.
    - cbn [run] in Hrun. destruct (step env st e) as [st1|] eqn:Hstep; [|discriminate].
      eapply persists_trans; [by eapply persists_step | by apply IH]. }
  destruct H as (front & mid & back & Hinv & Hmid).
  exists front, mid, back. split; [done|].
  eapply Forall2_impl; [exact Hmid|]. intros a b ->. done.
Qed.

Lemma products_persist_witness :
  run demoState
    [(demoEnv, AddNewItem (mkInventoryItem "9" "Basmati Rice" 12 "unit" 90 None None));
     (demoEnv, AiAction "RESTOCK" (payload [line "milk" 6; line "Ghee" 2]));
     (demoEnv, AiAction "RECORD_SALE" (payload [line "bread" 2]))]
  = Ok (mkAppState
          (inventory
             (handleSaleComplete demoEnv [mkSaleItem "bread" 2 None]
                (set_inventory demoState
                   ((inventoryLines demoEnv 0 [line "milk" 6; line "Ghee" 2]
                       (mkInventoryItem "9" "Basmati Rice" 12 "unit" 90 None None
                          :: inventory demoState) 0).1))))
          [mkSaleRecord (Date_now demoEnv) [mkSaleItem "bread" 2 (Some 40)] 80
             (Date_iso demoEnv)]
          (expenses demoState
             ++ [mkExpenseRecord (Date_now demoEnv) "Restock: 2 items" 214 (Date_iso demoEnv)])
          [] calculator)
  ∧ ∃ front mid back st',
      run demoState
        [(demoEnv, AddNewItem (mkInventoryItem "9" "Basmati Rice" 12 "unit" 90 None None));
         (demoEnv, AiAction "RESTOCK" (payload [line "milk" 6; line "Ghee" 2]));
         (demoEnv, AiAction "RECORD_SALE" (payload [line "bread" 2]))] = Ok st'
      ∧ inventory st' = front ++ mid ++ back
      ∧ length mid = 7%nat.
Proof.
  assert (Hrun : ∃ st', run demoState
        [(demoEnv, AddNewItem (mkInventoryItem "9" "Basmati Rice" 12 "unit" 90 None None));
         (demoEnv, AiAction "RESTOCK" (payload [line "milk" 6; line "Ghee" 2]));
         (demoEnv, AiAction "RECORD_SALE" (payload [line "bread" 2]))] = Ok st').
  { eexists. vm_compute. reflexivity. }
  split; [vm_compute; reflexivity|].
  destruct Hrun as [st' Hst'].
  destruct (products_persist _ _ _ Hst') as (front & mid & back & Hinv & Hmid).
  exists front, mid, back, st'. split; [exact Hst'|]. split; [exact Hinv|].
  apply Forall2_length in Hmid. rewrite <- Hmid. reflexivity.
Defined.

(** ** The ledgers only grow *)

Lemma ledgers_handleAiAction (env : Env) (actionType : string) (data : option Payload)
    (st st' : AppState) :
  handleAiAction env actionType data st = Ok st' →
  (sales st' = sales st ∨ ∃ rec, sales st' = sales st ++ [rec])
  ∧ (expenses st' = expenses st ∨ ∃ e, expenses st' = expenses st ++ [e]).
Proof.
  ai_branches env actionType data st;
    cbn [set_expenses set_inventory set_cart set_activeTab set_sales sales expenses
         updateInventoryAndRecordSale];
    (split; [first [by left | right; by eexists] | first [by left | right; by eexists]]).
Qed.

Lemma ledgers_step (env : Env) (st st' : AppState) (e : Event) :
  step env st e = Ok st' →
  (sales st' = sales st ∨ ∃ rec, sales st' = sales st ++ [rec])
  ∧ ∃ newExpenses, expenses st' = expenses st ++ newExpenses.
Proof.
  destruct e as [k d|name|newItem|item|idx|idx|its|]; cbn [step].
  - intros H. apply ledgers_handleAiAction in H as [Hs [->|[e ->]]].
    + split; [done | exists []; by rewrite app_nil_r].
    + split; [done | by eexists].
  - intros [= <-]. split; [by left | by eexists].
  - intros [= <-]. split; [by left | exists []; by rewrite app_nil_r].
  - intros [= <-]. split; [by left | exists []; by rewrite app_nil_r].
  - intros [= <-]. split; [by left | exists []; by rewrite app_nil_r].
  - intros [= <-]. split; [by left | exists []; by rewrite app_nil_r].
  - intros [= <-]. split; [by left | exists []; by rewrite app_nil_r].
  - intros [= <-]. unfold handleCheckout. destruct (cart st).
    + split; [by left | exists []; by rewrite app_nil_r].
    + cbn [handleSaleComplete updateInventoryAndRecordSale set_cart set_sales
           set_inventory sales expenses].
      split; [right; by eexists | exists []; by rewrite app_nil_r].
Qed.

(** Along any run the sales ledger and the expense ledger only grow at the
    end: every record that was there is still there, unchanged and in
    place, and each event appends at most one sale record.  An action
    record appends at most one expense record. *)
Theorem ledgers_append_only :
  (∀ evs st st',
     run st evs = Ok st' →
     ∃ newSales newExpenses,
       sales st' = sales st ++ newSales
       ∧ expenses st' = expenses st ++ newExpenses
       ∧ (length newSales ≤ length evs)%nat)
  ∧ (∀ env actionType data st st',
       handleAiAction env actionType data st = Ok st' →
       (sales st' = sales st ∨ ∃ rec, sales st' = sales st ++ [rec])
       ∧ (expenses st' = expenses st ∨ ∃ e, expenses st' = expenses st ++ [e])).
Proof.
  split; [|apply ledgers_handleAiAction].
  induction evs as [|[env e] evs IH]; intros st st' Hrun.
  - injection Hrun as <-. exists [], []. by rewrite !app_nil_r.
  - cbn [run] in Hrun. destruct (step env st e) as [st1|] eqn:Hstep; [|discriminate].
    destruct (IH _ _ Hrun) as (ns & ne & Hs & He & Hlen).
    destruct (ledgers_step _ _ _ _ Hstep) as [Hs1 [ne1 He1]].
    destruct Hs1 as [Hs1 | [rec Hs1]].
    + exists ns, (ne1 ++ ne). rewrite Hs, He, Hs1, He1, <- app_assoc.
      split_and!; [done..|]. cbn [length]. lia.
    + exists (rec :: ns), (ne1 ++ ne). rewrite Hs, He, Hs1, He1, <- !app_assoc.
      split_and!; [done..|]. cbn [length]. lia.
Qed.

Lemma ledgers_append_only_witness :
  ∃ st' newSales newExpenses,
    run demoState
      [(demoEnv, QuickRestock "Bread");
       (demoEnv, CatalogAdd bread);
       (demoEnv, Checkout)] = Ok st'
    ∧ sales st' = sales demoState ++ newSales
    ∧ expenses st' = expenses demoState ++ newExpenses
    ∧ (length newSales ≤ 3)%nat.
Proof.
  assert (Hrun : ∃ st', run demoState
      [(demoEnv, QuickRestock "Bread");
       (demoEnv, CatalogAdd bread);
       (demoEnv, Checkout)] = Ok st').
  { eexists. vm_compute. reflexivity. }
  destruct Hrun as [st' Hst'].
  destruct (proj1 ledgers_append_only _ _ _ Hst') as (ns & ne & Hs & He & Hlen).
  exists st', ns, ne. split_and!; [exact Hst' | exact Hs | exact He | exact Hlen].
Defined.

(** ** The totals shown and the totals recorded *)

(** When every line resolves, or none does, and the resolved lines have a
    non-zero price of their own, the recorded total is the charged total,
    whenever the inventory updater runs. *)
Lemma sale_total_charged (env : Env) (lines : list SaleItem) (st : AppState) :
  Forall (λ l, is_Some (resolveForSale (sale_name l) (inventory st))) lines
  ∨ Forall (λ l, resolveForSale (sale_name l) (inventory st) = None) lines →
  Forall (λ l, is_Some (resolveForSale (sale_name l) (inventory st)) →
               falsy (sale_price l) = false) lines →
  ∃ rec,
    sales (updateInventoryAndRecordSale env lines st) = sales st ++ [rec]
    ∧ rec_items rec = map (pricedLine (inventory st)) lines
    ∧ rec_totalAmount rec == chargedTotal (inventory st) lines.
Proof.
  intros Hcase Hown.
  destruct (sale_record_shape env lines st) as (total & Hsales & Hnz & Hz & Hlater).
  eexists. split; [exact Hsales|]. split; [reflexivity|]. cbn [rec_totalAmount].
  destruct (eagerState env).
  - destruct Hcase as [Hall | Hnone].
    + pose proof (resolvedTotal_all _ _ Hall) as Hr.
      destruct (Qeq_bool (resolvedTotal (inventory st) lines) 0) eqn:E.
      * by apply Hz.
      * rewrite (Hnz eq_refl eq_refl). exact Hr.
    + apply Hz; [done|]. apply Qeq_bool_iff. by apply resolvedTotal_none.
  - rewrite (Hlater eq_refl). by apply sumLinePrices_own.
Qed.

Lemma totalAmount_app (c1 c2 : list SaleItem) :
  totalAmount (c1 ++ c2) == totalAmount c1 + totalAmount c2.
Proof. apply sumLinePrices_app. Qed.

Lemma totalAmount_cons (l : list SaleItem) (x : SaleItem) :
  totalAmount (x :: l) == or_else (sale_price x) 0 * sale_quantity x + totalAmount l.
Proof.
  change (x :: l) with ([x] ++ l). rewrite totalAmount_app.
  unfold totalAmount at 1. cbn [fold_left]. lra.
Qed.

Lemma totalAmount_charged (inv : list InventoryItem) (c : list SaleItem) :
  Forall (λ l, falsy (sale_price l) = false) c →
  totalAmount c == chargedTotal inv c.
Proof.
  induction 1 as [|l rest Hl _ IH]; [reflexivity|].
  rewrite totalAmount_cons, IH. cbn [chargedTotal fold_right].
  fold (chargedTotal inv rest). unfold chargedPrice.
  destruct (resolveForSale _ inv); [|reflexivity].
  by rewrite Hl, (or_else_price_of _ Hl).
Qed.

(** Checking out a cart in which every line has a non-zero price, and in
    which every name resolves or none does, records a sale whose total is
    the total the calculator displays for that cart; checking out an empty
    cart does nothing at all. *)
Theorem checkout_records_displayed_total (env : Env) (st : AppState) :
  (cart st ≠ [] →
   Forall (λ l, falsy (sale_price l) = false) (cart st) →
   Forall (λ l, is_Some (resolveForSale (sale_name l) (inventory st))) (cart st)
   ∨ Forall (λ l, resolveForSale (sale_name l) (inventory st) = None) (cart st) →
   ∃ rec,
     sales (handleCheckout env st) = sales st ++ [rec]
     ∧ rec_totalAmount rec == totalAmount (cart st)
     ∧ cart (handleCheckout env st) = [])
  ∧ (cart st = [] → handleCheckout env st = st).
Proof.
  split.
  - intros Hne Hprices Hcase. unfold handleCheckout.
    destruct (cart st) as [|x c] eqn:E; [done|]. rewrite <- E in *.
    assert (Hown : Forall (λ l, is_Some (resolveForSale (sale_name l) (inventory st)) →
                                falsy (sale_price l) = false) (cart st)).
    { eapply Forall_impl; [exact Hprices|]. by intros l Hl _. }
    destruct (sale_total_charged env (cart st) st Hcase Hown)
      as (rec & Hsales & _ & Htotal).
    exists rec. cbn [handleSaleComplete set_cart sales cart].
    split_and!; [done | | done].
    rewrite Htotal. symmetry. by apply totalAmount_charged.
  - intros E. unfold handleCheckout. by rewrite E.
Qed.

Lemma checkout_records_displayed_total_witness :
  cart (set_cart demoState [mkSaleItem "Amul Milk" 2 (Some 28); mkSaleItem "Bread" 1 (Some 40)])
  ≠ []
  ∧ totalAmount [mkSaleItem "Amul Milk" 2 (Some 28); mkSaleItem "Bread" 1 (Some 40)] = 96
  ∧ ∃ rec,
      sales (handleCheckout demoEnv
               (set_cart demoState
                  [mkSaleItem "Amul Milk" 2 (Some 28); mkSaleItem "Bread" 1 (Some 40)]))
      = sales demoState ++ [rec]
      ∧ rec_totalAmount rec == 96.
Proof.
  assert (Hne : cart (set_cart demoState
                        [mkSaleItem "Amul Milk" 2 (Some 28); mkSaleItem "Bread" 1 (Some 40)])
                ≠ []) by discriminate.
  assert (Hp : Forall (λ l, falsy (sale_price l) = false)
                 (cart (set_cart demoState
                          [mkSaleItem "Amul Milk" 2 (Some 28); mkSaleItem "Bread" 1 (Some 40)]))).
  { repeat constructor. }
  assert (Hr : Forall (λ l, is_Some (resolveForSale (sale_name l) (inventory demoState)))
                 (cart (set_cart demoState
                          [mkSaleItem "Amul Milk" 2 (Some 28); mkSaleItem "Bread" 1 (Some 40)]))).
  { cbn [cart set_cart].
    constructor; [vm_compute; eexists; reflexivity|].
    constructor; [vm_compute; eexists; reflexivity|]. constructor. }
  split; [exact Hne|]. split; [vm_compute; reflexivity|].
  destruct (proj1 (checkout_records_displayed_total demoEnv _) Hne Hp (or_introl Hr))
    as (rec & Hsales & Htotal & _).
  exists rec. split; [exact Hsales|].
  rewrite Htotal. vm_compute. reflexivity.
Defined.

Lemma showTotal_acc (inv : list InventoryItem) (its : list PayloadItem) (a : number) :
  fold_left
    (λ total item,
       let price :=
         match find (nameIncludes (req_name item)) inv with
         | Some invItem => item_price invItem
         | None => or_else (req_price item) 0
         end in
       total + req_quantity item * price) its a
  == a + showTotal inv (payload its).
Proof.
  cbn [showTotal payload items]. revert a.
  induction its as [|x its IH]; intros a; cbn [fold_left].
  - lra.
  - rewrite IH. rewrite (IH (0 + _)). lra.
Qed.

Lemma find_elem_of {A} (p : A → bool) (l : list A) (x : A) :
  find p l = Some x → x ∈ l.
Proof.
  unfold find. destruct (findIndex p l) as [[i y]|] eqn:E; [|done].
  intros [= ->]. apply findIndex_Some in E as [Hi _]. by eapply list_elem_of_lookup_2.
Qed.

(** The lines COMPLETE_SALE hands to the sale recorder are charged what
    SHOW_TOTAL quotes for them, when no product is priced 0. *)
Lemma charged_processCartItems (inv : list InventoryItem) (its : list PayloadItem) :
  Forall (λ it, ¬ item_price it == 0) inv →
  chargedTotal inv (processCartItems inv (payload its)) == showTotal inv (payload its).
Proof.
  intros Hprices. cbn [processCartItems payload items].
  induction its as [|x its IH].
  - reflexivity.
  - cbn [map chargedTotal fold_right]. fold (chargedTotal inv).
    rewrite IH. clear IH.
    transitivity (0 + req_quantity x
                      * match find (nameIncludes (req_name x)) inv with
                        | Some invItem => item_price invItem
                        | None => or_else (req_price x) 0
                        end + showTotal inv (payload its)).
    2:{ unfold showTotal at 2. cbn [payload items fold_left].
        rewrite showTotal_acc. reflexivity. }
    unfold chargedPrice, resolveForSale. cbn [sale_name sale_price sale_quantity].
    destruct (find (nameIncludes (req_name x)) inv) as [it|] eqn:E;
      cbn [fmap option_fmap option_map].
    + assert (Hnz : Qeq_bool (item_price it) 0 = false).
      { destruct (Qeq_bool (item_price it) 0) eqn:Hz; [|done].
        apply Qeq_bool_iff in Hz.
        destruct (proj1 (Forall_forall _ _) Hprices it (find_elem_of _ _ _ E) Hz). }
      assert (Hor : or_else (Some (item_price it)) (or_else (req_price x) 0)
                    = item_price it) by (cbn [or_else]; by rewrite Hnz).
      rewrite !Hor. cbn [falsy]. rewrite Hnz. cbn [price_of sale_price]. ring.
    + cbn [or_else]. fold (or_else (req_price x) 0).
      destruct (Qeq_bool (or_else (req_price x) 0) 0) eqn:Hz.
      * apply Qeq_bool_iff in Hz. rewrite Hz. ring.
      * ring.
Qed.

(** When no product is priced 0 and every name of the payload resolves, or
    none does, the sale COMPLETE_SALE records for a payload has exactly
    the total SHOW_TOTAL quotes in the chat for the same payload. *)
Theorem complete_sale_matches_quote (env : Env) (its : list PayloadItem) (st : AppState) :
  Forall (λ it, ¬ item_price it == 0) (inventory st) →
  Forall (λ x, is_Some (find (nameIncludes (req_name x)) (inventory st))) its
  ∨ Forall (λ x, find (nameIncludes (req_name x)) (inventory st) = None) its →
  ∃ st' rec,
    handleAiAction env "COMPLETE_SALE" (payload its) st = Ok st'
    ∧ sales st' = sales st ++ [rec]
    ∧ rec_totalAmount rec == showTotal (inventory st) (payload its).
Proof.
  intros Hprices Hcase.
  change (handleAiAction env "COMPLETE_SALE" (payload its) st)
    with (Ok (updateInventoryAndRecordSale env
                (processCartItems (inventory st) (payload its)) st)).
  assert (Hlines :
    Forall (λ l, is_Some (resolveForSale (sale_name l) (inventory st)))
           (processCartItems (inventory st) (payload its))
    ∨ Forall (λ l, resolveForSale (sale_name l) (inventory st) = None)
             (processCartItems (inventory st) (payload its))).
  { cbn [processCartItems payload items].
    change (map ?f its) with (f <$> its).
    destruct Hcase as [H | H]; [left | right]; apply Forall_fmap;
      (eapply Forall_impl; [exact H|]); intros x Hx; exact Hx. }
  assert (Hown :
    Forall (λ l, is_Some (resolveForSale (sale_name l) (inventory st)) →
                 falsy (sale_price l) = false)
           (processCartItems (inventory st) (payload its))).
  { cbn [processCartItems payload items].
    change (map ?f its) with (f <$> its).
    apply Forall_fmap, Forall_forall. intros x _ [it Hit].
    cbn [sale_name sale_price] in *. unfold resolveForSale in Hit. rewrite Hit.
    cbn [fmap option_fmap option_map or_else falsy].
    destruct (Qeq_bool (item_price it) 0) eqn:E; [|by rewrite E].
    apply Qeq_bool_iff in E.
    destruct (proj1 (Forall_forall _ _) Hprices it (find_elem_of _ _ _ Hit) E). }
  destruct (sale_total_charged env _ st Hlines Hown) as (rec & Hsales & _ & Htotal).
  eexists; exists rec. split; [reflexivity|]. split; [exact Hsales|].
  rewrite Htotal. by apply charged_processCartItems.
Qed.

Lemma complete_sale_matches_quote_witness :
  Forall (λ it, ¬ item_price it == 0) (inventory demoState)
  ∧ showTotal (inventory demoState) (payload [line "milk" 2; line "bread" 1]) = 96
  ∧ ∃ st' rec,
      handleAiAction demoEnv "COMPLETE_SALE" (payload [line "milk" 2; line "bread" 1]) demoState
      = Ok st'
      ∧ sales st' = sales demoState ++ [rec]
      ∧ rec_totalAmount rec == 96.
Proof.
  assert (Hp : Forall (λ it, ¬ item_price it == 0) (inventory demoState)).
  { repeat constructor; vm_compute; discriminate. }
  assert (Hr : Forall (λ x, is_Some (find (nameIncludes (req_name x)) (inventory demoState)))
                 [line "milk" 2; line "bread" 1]).
  { repeat constructor; vm_compute; eexists; reflexivity. }
  split; [exact Hp|]. split; [vm_compute; reflexivity|].
  destruct (complete_sale_matches_quote demoEnv _ demoState Hp (or_introl Hr))
    as (st' & rec & Hst & Hsales & Htotal).
  exists st', rec. split_and!; [exact Hst | exact Hsales |].
  rewrite Htotal. vm_compute. reflexivity.
Defined.

(** ** Removing, incrementing and decrementing cart lines *)

Lemma cartQty_cons (name : string) (x : SaleItem) (c : list SaleItem) :
  cartQty name (x :: c)
  = (if str_eq (sale_name x) name then sale_quantity x else 0) + cartQty name c.
Proof. reflexivity. Qed.

(** [removeItem] takes out every line of the name and nothing else: the
    other lines stay, in order; removing a name the cart does not hold
    changes nothing; the quantity held under the name drops to 0 and the
    quantity held under any other name is unchanged. *)
Theorem removeItem_effect (name : string) (c : list SaleItem) :
  (∀ l, l ∈ removeItem name c ↔ l ∈ c ∧ sale_name l ≠ name)
  ∧ removeItem name c `sublist_of` c
  ∧ ((∀ l, l ∈ c → sale_name l ≠ name) → removeItem name c = c)
  ∧ removeItem name (removeItem name c) = removeItem name c
  ∧ cartQty name (removeItem name c) == 0
  ∧ (∀ other, other ≠ name → cartQty other (removeItem name c) == cartQty other c).
Proof.
  unfold removeItem. split_and!.
  - intros l. rewrite list_elem_of_filter, str_eq_false. tauto.
  - apply sublist_filter.
  - intros Hfresh. induction c as [|x c IH]; [done|].
    rewrite filter_cons_True by (apply str_eq_false, Hfresh; by left).
    f_equal. apply IH. intros l Hl. apply Hfresh. by right.
  - induction c as [|x c IH]; [done|].
    destruct (str_eq (sale_name x) name) eqn:E.
    + rewrite filter_cons_False by (rewrite E; discriminate). exact IH.
    + rewrite !filter_cons_True by done. by rewrite IH.
  - induction c as [|x c IH]; [reflexivity|].
    destruct (str_eq (sale_name x) name) eqn:E.
    + rewrite filter_cons_False by (rewrite E; discriminate). exact IH.
    + rewrite filter_cons_True by done. rewrite cartQty_cons, E, IH. lra.
  - intros other Hne. induction c as [|x c IH]; [reflexivity|].
    destruct (str_eq (sale_name x) name) eqn:E.
    + rewrite filter_cons_False by (rewrite E; discriminate).
      rewrite cartQty_cons. apply str_eq_true in E.
      assert (str_eq (sale_name x) other = false) as -> by (apply str_eq_false; congruence).
      rewrite IH. lra.
    + rewrite filter_cons_True by done. rewrite !cartQty_cons, IH. reflexivity.
Qed.







(** ** The three ways into the cart agree *)

Lemma NoDup_mergeLine (c : list SaleItem) (item : SaleItem) :
  NoDup (sale_name <$> c) → NoDup (sale_name <$> mergeLine c item).
Proof.
  intros Hnd.
  destruct (mergeLine_cases c item) as [(i & existing & Hi & Hn & _ & ->)|[Hfresh ->]].
  - by rewrite (names_insert_same _ _ existing).
  - rewrite fmap_app. apply NoDup_app. split_and!; [done | | apply NoDup_singleton].
    intros n Hin Hn. apply list_elem_of_fmap in Hin as (l & -> & Hl).
    apply list_elem_of_singleton in Hn. by apply (Hfresh l Hl).
Qed.

(** On a cart with one line per name, adding by name with [map] (the
    calculator) and adding to the first match in place (the dispatcher)
    are the same operation. *)
Lemma add_by_map_is_mergeLine (c : list SaleItem) (item : SaleItem) :
  NoDup (sale_name <$> c) →
  match find (λ p, str_eq (sale_name p) (sale_name item)) c with
  | Some _ =>
      map (λ p, if str_eq (sale_name p) (sale_name item)
                then set_sale_quantity p (sale_quantity p + sale_quantity item) else p) c
  | None => c ++ [item]
  end = mergeLine c item.
Proof.
  intros Hnd. unfold mergeLine, find.
  destruct (findIndex _ c) as [[i existing]|] eqn:E; cbn [fmap option_fmap option_map]; [|done].
  apply findIndex_Some in E as (Hi & Hn & _). apply str_eq_true in Hn.
  by apply (map_at_unique sale_name
              (λ p, set_sale_quantity p (sale_quantity p + sale_quantity item))).
Qed.

(** On a cart with one line per name the voice input of the calculator
    and the ADD_TO_CART action of the chat build the same cart from the
    same lines, and the catalogue button adds a product exactly as a merge
    of one line carrying the product's name and price. *)
Theorem cart_entry_points_agree (inv : list InventoryItem) (c : list SaleItem) :
  NoDup (sale_name <$> c) →
  (∀ its, handleVoiceInput inv its c = mergeCart c (processCartItems inv (payload its)))
  ∧ (∀ item q,
       addToCart item q c
       = mergeLine c (mkSaleItem (item_name item) q (Some (item_price item)))).
Proof.
  intros Hnd. split.
  - intros its. revert c Hnd.
    unfold handleVoiceInput, mergeCart. cbn [processCartItems payload items].
    induction its as [|v its IH]; intros c Hnd; [done|].
    cbn [fold_left map].
    assert (Hline : voiceLine inv c v
                    = mergeLine c
                        (mkSaleItem (req_name v) (req_quantity v)
                           (Some (or_else (item_price <$> find (nameIncludes (req_name v)) inv)
                                          (or_else (req_price v) 0))))).
    { rewrite <- (add_by_map_is_mergeLine c _ Hnd). reflexivity. }
    rewrite Hline. apply IH. by apply NoDup_mergeLine.
  - intros item q.
    rewrite <- (add_by_map_is_mergeLine c _ Hnd). reflexivity.
Qed.

Lemma cart_entry_points_agree_witness :
  NoDup (sale_name <$> [mkSaleItem "Bread" 1 (Some 40)])
  ∧ handleVoiceInput (inventory demoState) [line "bread" 2; line "Bread" 1; line "milk" 1]
      [mkSaleItem "Bread" 1 (Some 40)]
    = [mkSaleItem "Bread" 2 (Some 40); mkSaleItem "bread" 2 (Some 40);
       mkSaleItem "milk" 1 (Some 28)]
  ∧ mergeCart [mkSaleItem "Bread" 1 (Some 40)]
      (processCartItems (inventory demoState)
         (payload [line "bread" 2; line "Bread" 1; line "milk" 1]))
    = [mkSaleItem "Bread" 2 (Some 40); mkSaleItem "bread" 2 (Some 40);
       mkSaleItem "milk" 1 (Some 28)].
Proof.
  assert (Hnd : NoDup (sale_name <$> [mkSaleItem "Bread" 1 (Some 40)])).
  { apply NoDup_singleton. }
  split; [exact Hnd|]. split; [vm_compute; reflexivity|].
  rewrite <- (proj1 (cart_entry_points_agree (inventory demoState) _ Hnd)).
  vm_compute. reflexivity.
Defined.

(** A merge never moves, renames or reprices a line that is already in
    the cart, whatever price the incoming lines carry: only its quantity
    can change; and the cart grows by at most one line per incoming line. *)
Theorem merge_keeps_existing_lines (items c : list SaleItem) :
  (∀ j l, c !! j = Some l →
     ∃ q, mergeCart c items !! j = Some (mkSaleItem (sale_name l) q (sale_price l)))
  ∧ (length c ≤ length (mergeCart c items) ≤ length c + length items)%nat.
Proof.
  unfold mergeCart. revert c. induction items as [|x items IH]; intros c.
  - split; [|cbn; lia]. intros j l Hj. exists (sale_quantity l). cbn. rewrite Hj. by destruct l.
  - cbn [fold_left]. destruct (IH (mergeLine c x)) as [IH1 IH2].
    destruct (mergeLine_cases c x) as [(i & existing & Hi & Hn & _ & Hm)|[Hfresh Hm]];
      rewrite Hm in *.
    + split.
      * intros j l Hj. destruct (decide (j = i)) as [->|Hne].
        -- assert (l = existing) as -> by congruence.
           destruct (IH1 i (set_sale_quantity existing
                              (sale_quantity existing + sale_quantity x))) as [q Hq].
           { apply list_lookup_insert_eq. by eapply lookup_lt_Some. }
           by exists q.
        -- apply IH1. by rewrite list_lookup_insert_ne.
      * rewrite length_insert in IH2. cbn [length]. lia.
    + split.
      * intros j l Hj. apply IH1. rewrite lookup_app_l; [done|]. by eapply lookup_lt_Some.
      * rewrite length_app in IH2. cbn [length] in *. lia.
Qed.

(** ** The dashboard's count of what was sold *)



Lemma or_else_proper (a b : number) : a == b → or_else (Some a) 0 == b.
Proof. intros H. rewrite or_else_some. exact H. Qed.










(** ** The best sellers *)

Lemma sortInsert_elem_of {A} (cmp : A → A → number) (x y : A) (l : list A) :
  y ∈ sortInsert cmp x l ↔ y = x ∨ y ∈ l.
Proof.
  induction l as [|z l IH]; cbn [sortInsert].
  - rewrite list_elem_of_singleton, elem_of_nil. tauto.
  - destruct (gt (cmp x z) 0); rewrite !elem_of_cons; [rewrite IH|]; tauto.
Qed.

Lemma sortInsert_length {A} (cmp : A → A → number) (x : A) (l : list A) :
  length (sortInsert cmp x l) = S (length l).
Proof.
  induction l as [|z l IH]; cbn [sortInsert]; [done|].
  destruct (gt (cmp x z) 0); cbn [length]; by rewrite ?IH.
Qed.

Lemma Array_sort_elem_of {A} (cmp : A → A → number) (y : A) (l : list A) :
  y ∈ Array_sort cmp l ↔ y ∈ l.
Proof.
  induction l as [|x l IH]; [done|].
  cbn [Array_sort fold_right]. fold (Array_sort cmp l).
  rewrite sortInsert_elem_of, IH, elem_of_cons. tauto.
Qed.

Lemma Array_sort_length {A} (cmp : A → A → number) (l : list A) :
  length (Array_sort cmp l) = length l.
Proof.
  induction l as [|x l IH]; [done|].
  cbn [Array_sort fold_right]. fold (Array_sort cmp l).
  by rewrite sortInsert_length, IH.
Qed.

Lemma descending_cons (x : string * number) (l : list (string * number)) :
  descending (x :: l) ↔ Forall (λ y, y.2 <= x.2) l ∧ descending l.
Proof. reflexivity. Qed.

Lemma sortInsert_descending (x : string * number) (l : list (string * number)) :
  descending l → descending (sortInsert (λ a b, b.2 - a.2) x l).
Proof.
  induction l as [|z l IH]; intros Hl; cbn [sortInsert].
  - apply descending_cons. split; [constructor | exact I].
  - unfold number in *. apply descending_cons in Hl as [Hz Hl]. cbv beta.
    destruct (gt _ 0) eqn:E.
    + apply gt_true in E. apply descending_cons. split; [|by apply IH].
      apply Forall_forall. intros y Hy. apply sortInsert_elem_of in Hy as [-> | Hy].
      * unfold number in *. lra.
      * by apply (proj1 (Forall_forall _ _) Hz).
    + apply gt_false in E. apply descending_cons. split; [|by apply descending_cons].
      apply Forall_cons; split; [unfold number in *; lra|].
      eapply Forall_impl; [exact Hz|]. intros y Hy. cbv beta in *. unfold number in *. lra.
Qed.

Lemma Array_sort_descending (l : list (string * number)) :
  descending (Array_sort (λ a b, b.2 - a.2) l).
Proof.
  induction l as [|x l IH]; [done|].
  cbn [Array_sort fold_right]. fold (Array_sort (λ a b : string * number, b.2 - a.2) l).
  by apply sortInsert_descending.
Qed.

Lemma descending_lookup (l : list (string * number)) (i j : nat) (a b : string * number) :
  descending l → (i < j)%nat → l !! i = Some a → l !! j = Some b → b.2 <= a.2.
Proof.
  revert i j. induction l as [|x l IH]; intros i j Hl Hij Hi Hj; [done|].
  apply descending_cons in Hl as [Hx Hl]. destruct j as [|j]; [lia|]. cbn in Hj.
  destruct i as [|i]; cbn in Hi.
  - injection Hi as ->. apply (proj1 (Forall_forall _ _) Hx).
    by eapply list_elem_of_lookup_2.
  - apply (IH i j); [done | lia | done..].
Qed.

(** The best-seller list of the dashboard holds at most five entries of
    the sales count, one per product name, in descending order of
    quantity sold, and no product left out of it has sold more than a
    product that is on it. *)
Theorem topSelling_spec (sl : list SaleRecord) :
  length (topSelling sl) = min 5 (length (productSalesMap sl))
  ∧ (∀ e, e ∈ topSelling sl → e ∈ productSalesMap sl)
  ∧ (∀ i j a b, (i < j)%nat → topSelling sl !! i = Some a → topSelling sl !! j = Some b →
       b.2 <= a.2)
  ∧ (∀ e a, e ∈ productSalesMap sl → e ∉ topSelling sl → a ∈ topSelling sl → e.2 <= a.2).
Proof.
  unfold topSelling.
  set (sorted := Array_sort (λ a b, b.2 - a.2) (productSalesMap sl)).
  assert (Hdesc : descending sorted) by apply Array_sort_descending.
  split_and!.
  - unfold sorted. by rewrite length_take, Array_sort_length.
  - intros e He. apply (Array_sort_elem_of (λ a b, b.2 - a.2)).
    by apply (subseteq_take 5).
  - intros i j a b Hij Hi Hj.
    apply lookup_take_Some in Hi as [Hi _]. apply lookup_take_Some in Hj as [Hj _].
    by apply (descending_lookup sorted i j).
  - intros e a He Hout Ha.
    apply (Array_sort_elem_of (λ a b, b.2 - a.2)) in He. fold sorted in He.
    apply list_elem_of_lookup in He as [j Hj].
    apply elem_of_take in Ha as (i & Hi & Hi5).
    destruct (decide (j < 5)%nat) as [Hj5|Hj5].
    + destruct Hout. apply elem_of_take. by exists j.
    + apply (descending_lookup sorted i j); [done | lia | done..].
Qed.

(** ** The catalogue search and the resolver *)

Lemma find_head_filter {A} (p : A → bool) (l : list A) :
  find p l = head (filter (λ x, p x = true) l).
Proof.
  unfold find. induction l as [|x l IH]; [done|].
  rewrite findIndex_cons. destruct (p x) eqn:E.
  - by rewrite filter_cons_True.
  - rewrite filter_cons_False by (rewrite E; discriminate). rewrite <- IH.
    by destruct (findIndex p l) as [[i y]|].
Qed.

Lemma includes_self (s : string) : includes s s = true.
Proof.
  apply includes_spec. exists "", "". rewrite append_empty.
  induction s as [|c s IH]; [done|]. rewrite append_cons. by rewrite <- IH.
Qed.

Lemma includes_nothing (s : string) : includes s "" = true.
Proof. apply includes_spec. by exists "", s. Qed.

(** The product the sale and cart paths resolve a name to is the first
    product the catalogue search of the calculator shows for that name as
    search term.  An empty search term shows the whole inventory.  A
    product's own name always resolves, to a product whose name contains
    it (ignoring case), so a cart line added from the catalogue is never
    an unresolved line at checkout. *)
Theorem search_and_resolution (inv : list InventoryItem) (q : string) :
  find (nameIncludes q) inv = head (filteredInventory inv q)
  ∧ filteredInventory inv "" = inv
  ∧ (∀ it, it ∈ filteredInventory inv q
           ↔ it ∈ inv ∧ substring_of (toLowerCase q) (toLowerCase (item_name it)))
  ∧ (∀ it, it ∈ inv →
       ∃ hit, resolveForSale (item_name it) inv = Some hit
              ∧ hit ∈ inv
              ∧ substring_of (toLowerCase (item_name it)) (toLowerCase (item_name hit))).
Proof.
  split_and!.
  - apply find_head_filter.
  - unfold filteredInventory. induction inv as [|x inv IH]; [done|].
    rewrite filter_cons_True; [by rewrite IH|].
    unfold nameIncludes. apply includes_nothing.
  - intros it. unfold filteredInventory.
    rewrite list_elem_of_filter, nameIncludes_spec. tauto.
  - intros it Hit. unfold resolveForSale.
    destruct (find (nameIncludes (item_name it)) inv) as [hit|] eqn:E.
    + exists hit. split; [done|]. split; [by eapply find_elem_of|].
      unfold find in E.
      destruct (findIndex (nameIncludes (item_name it)) inv) as [[i y]|] eqn:E'; [|done].
      injection E as ->. apply findIndex_Some in E' as (_ & Hm & _).
      by apply nameIncludes_spec.
    + exfalso. unfold find in E.
      destruct (findIndex (nameIncludes (item_name it)) inv) as [[i y]|] eqn:E'; [done|].
      pose proof (proj1 (findIndex_None _ _) E' it Hit) as Hno.
      unfold nameIncludes in Hno. by rewrite includes_self in Hno.
Qed.

(** ** Actions that change nothing *)

(** An action of a kind the dispatcher does not know returns the state
    unchanged and does not throw, whatever the payload, missing or not;
    so does an UPDATE_INVENTORY or RESTOCK action whose items array is
    empty. *)
Theorem unknown_kind_is_noop (env : Env) (actionType : string) (data : option Payload)
    (st : AppState) :
  (actionType ≠ "UPDATE_INVENTORY" → actionType ≠ "RESTOCK" →
   actionType ≠ "RECORD_SALE" → actionType ≠ "ADD_TO_CART" →
   actionType ≠ "UPDATE_CART" → actionType ≠ "VIEW_BILL" →
   actionType ≠ "NAVIGATE_BILL" → actionType ≠ "COMPLETE_SALE" →
   handleAiAction env actionType data st = Ok st)
  ∧ handleAiAction env "UPDATE_INVENTORY" (payload []) st = Ok st
  ∧ handleAiAction env "RESTOCK" (payload []) st = Ok st.
Proof.
  split_and!.
  - intros H1 H2 H3 H4 H5 H6 H7 H8. unfold handleAiAction.
    apply str_eq_false in H1, H2, H3, H4, H5, H6, H7, H8.
    by rewrite H1, H2, H3, H4, H5, H6, H7, H8.
  - destruct st, env as [? ? ? ? []]; reflexivity.
  - destruct st, env as [? ? ? ? []]; reflexivity.
Qed.

Lemma unknown_kind_is_noop_witness :
  handleAiAction demoEnv "REVIEW_IMAGE" None demoState = Ok demoState.
Proof.
  apply (proj1 (unknown_kind_is_noop demoEnv "REVIEW_IMAGE" None demoState));
    discriminate.
Defined.

(** ** The figures of the day *)

Lemma todayIncome_snoc (todayStr : string) (sl : list SaleRecord) (rec : SaleRecord) :
  todayIncome todayStr (sl ++ [rec])
  = if isToday todayStr (rec_date rec)
    then fl_add (todayIncome todayStr sl) (rec_totalAmount rec)
    else todayIncome todayStr sl.
Proof.
  unfold todayIncome. rewrite filter_app, fold_left_app.
  destruct (isToday todayStr (rec_date rec)) eqn:E.
  - rewrite (filter_cons_True _ rec []) by done. by rewrite filter_nil.
  - rewrite (filter_cons_False _ rec []) by (rewrite E; discriminate).
    by rewrite filter_nil.
Qed.

Lemma todayExpense_snoc (todayStr : string) (ex : list ExpenseRecord) (e : ExpenseRecord) :
  todayExpense todayStr (ex ++ [e])
  = if isToday todayStr (exp_date e)
    then fl_add (todayExpense todayStr ex) (exp_amount e)
    else todayExpense todayStr ex.
Proof.
  unfold todayExpense. rewrite filter_app, fold_left_app.
  destruct (isToday todayStr (exp_date e)) eqn:E.
  - rewrite (filter_cons_True _ e []) by done. by rewrite filter_nil.
  - rewrite (filter_cons_False _ e []) by (rewrite E; discriminate).
    by rewrite filter_nil.
Qed.

(** On the dashboard, a sale recorded at a moment of the day shown adds
    the total of its sale record to the income of the day (a sum of
    doubles, exact when both are whole numbers and the sum is below 2^53)
    and leaves the expense of the day alone; a sale recorded on another
    day leaves both alone.  A quick restock, at a moment of the day shown,
    of a product whose name is unique adds the amount of its expense
    record to the expense of the day, which is [(price * 0.8) * 10] as the
    doubles give it, 8 times the product's price up to a relative error
    of 2^-51, and leaves the income alone. *)
Theorem figures_of_the_day (env : Env) (todayStr : string) (st : AppState) :
  (∀ lines,
     ∃ rec,
       sales (updateInventoryAndRecordSale env lines st) = sales st ++ [rec]
       ∧ (isToday todayStr (Date_iso env) = true →
          todayIncome todayStr (sales (updateInventoryAndRecordSale env lines st))
          = fl_add (todayIncome todayStr (sales st)) (rec_totalAmount rec)
          ∧ ∀ a b : Z,
              todayIncome todayStr (sales st) = inject_Z a →
              rec_totalAmount rec = inject_Z b →
              (Z.abs (a + b) < 2 ^ 53)%Z →
              todayIncome todayStr (sales (updateInventoryAndRecordSale env lines st))
              = inject_Z (a + b))
       ∧ (isToday todayStr (Date_iso env) = false →
          todayIncome todayStr (sales (updateInventoryAndRecordSale env lines st))
          = todayIncome todayStr (sales st))
       ∧ todayExpense todayStr (expenses (updateInventoryAndRecordSale env lines st))
         = todayExpense todayStr (expenses st))
  ∧ (∀ i it,
       NoDup (item_name <$> inventory st) → inventory st !! i = Some it →
       isToday todayStr (Date_iso env) = true →
       (∃ e,
          expenses (handleQuickRestock env (item_name it) st) = expenses st ++ [e]
          ∧ todayExpense todayStr (expenses (handleQuickRestock env (item_name it) st))
            = fl_add (todayExpense todayStr (expenses st)) (exp_amount e)
          ∧ exp_amount e = fl_mul (fl_mul (item_price it) lit_0_8) 10
          ∧ (1 # 100 <= item_price it →
             Qabs (exp_amount e - 8 * item_price it)
             <= 8 * item_price it * (1 # 2251799813685248)))
       ∧ todayIncome todayStr (sales (handleQuickRestock env (item_name it) st))
         = todayIncome todayStr (sales st)).
Proof.
  split.
  - intros lines. eexists. split; [reflexivity|].
    cbn [updateInventoryAndRecordSale set_sales set_inventory sales expenses].
    split_and!; [| |done].
    + intros E. rewrite todayIncome_snoc. cbn [rec_date rec_totalAmount]. rewrite E.
      split; [done|]. intros a b -> -> Hab. by apply fl_add_int.
    + intros E. rewrite todayIncome_snoc. cbn [rec_date]. by rewrite E.
  - intros i it Hnd Hi E. split; [|done].
    exists (quickRestockExpense env it).
    unfold handleQuickRestock. cbn [set_expenses set_inventory expenses].
    rewrite (filter_at_unique item_name _ i it) by done. cbn [map].
    rewrite todayExpense_snoc. cbn [quickRestockExpense exp_date exp_amount].
    rewrite E. split_and!; try done.
    apply (quickRestock_amount env it).
Qed.

Lemma figures_of_the_day_witness :
  NoDup (item_name <$> inventory demoState)
  ∧ inventory demoState !! 5%nat = Some amulMilk
  ∧ isToday "2023-11-14" (Date_iso demoEnv) = true
  ∧ todayExpense "2023-11-14" (expenses (handleQuickRestock demoEnv "Amul Milk" demoState))
    = 224 + (1 # 35184372088832).
Proof.
  assert (Hnd : NoDup (item_name <$> inventory demoState)).
  { apply (bool_decide_unpack _). vm_compute. reflexivity. }
  split; [exact Hnd|]. split; [reflexivity|]. split; [reflexivity|].
  destruct (proj2 (figures_of_the_day demoEnv "2023-11-14" demoState) 5%nat amulMilk
              Hnd eq_refl eq_refl) as ((e & _ & Hsum & Hamount & _) & _).
  change (item_name amulMilk) with "Amul Milk" in Hsum.
  rewrite Hsum, Hamount. vm_compute. reflexivity.
Defined.

(** ** The totals under the cart *)








(** ** Lines of one inventory action, one after the other *)







(** ** The size of a compressed image *)


